(** * pyaws: session resolution and latest-AMI lookup

    A shallow embedding of [pyaws/session.py] and [pyaws/ec2/current_ami.py].

    The two modules are glue around boto3, the aws command line and the local
    file system.  Everything the code asks of the outside is gathered in a
    record [World] of oracles; the Python functions are translated over it,
    statement by statement, in a small monad that carries the two effects the
    source has: exceptions and log output. *)

From stdpp Require Import base option list strings gmap fin_maps.
From Stdlib Require Import ZArith Ascii String.

Local Open Scope string_scope.
Local Open Scope Z_scope.
Local Open Scope list_scope.

(** ** Python values, exceptions and log records *)

(** The exception classes that the code raises, catches or tells apart.
    [ClientError] carries [e.response['Error']['Code']] and
    [e.response['Error']['Message']]; every class below is a subclass of
    Python's [Exception]. *)
Inductive exn :=
  | ClientError (code message : string)
  | ProfileNotFound (profile : string)
  | IndexError
  | KeyError (key : string)
  | TypeError
  | OtherError (what : string).

(** The dynamically typed values that the modelled code stores in
    dictionaries or interpolates into messages. *)
Inductive pyval :=
  | VNone
  | VInt (n : Z)
  | VStr (s : string)
  | VExn (e : exn).

#[global] Instance exn_eq_dec : EqDecision exn.
Proof. solve_decision. Defined.

#[global] Instance pyval_eq_dec : EqDecision pyval.
Proof. solve_decision. Defined.

Definition VOpt (o : option string) : pyval :=
  match o with None => VNone | Some s => VStr s end.

Inductive Result (A : Type) :=
  | Ok (a : A)
  | Raise (e : exn).
Arguments Ok {A} a.
Arguments Raise {A} e.

(** Output channels: the [logger] methods and [stdout_message]. *)
Inductive channel := LogInfo | LogWarning | LogException | Stdout.

(** One emitted message: the channel, the function that emitted it
    ([inspect.stack()[0][3]]) and the interpolated arguments. *)
Record event := Event {
  ev_channel : channel;
  ev_function : string;
  ev_args : list pyval
}.

(** ** The monad: a log and a result *)

Definition Py (A : Type) : Type := (list event * Result A)%type.

Definition output {A} (m : Py A) : list event := fst m.
Definition result {A} (m : Py A) : Result A := snd m.

Definition py_ret {A} (a : A) : Py A := ([], Ok a).
Definition py_raise {A} (e : exn) : Py A := ([], Raise e).
Definition py_lift {A} (r : Result A) : Py A := ([], r).
Definition py_emit (ev : event) : Py unit := ([ev], Ok tt).

Definition py_bind {A B} (m : Py A) (k : A → Py B) : Py B :=
  match m with
  | (l, Ok a) => let '(l', r) := k a in (l ++ l', r)
  | (l, Raise e) => (l, Raise e)
  end.

(** [try: m  except ...].  The handler [h] stands for the list of [except]
    clauses: [h e = None] when no clause accepts [e], which then propagates;
    otherwise [h e] is the body of the first clause that accepts it.  A
    failure raised inside a clause body propagates. *)
Definition py_try {A} (m : Py A) (h : exn → option (Py A)) : Py A :=
  match m with
  | (l, Raise e) =>
      match h e with
      | Some k => let '(l', r) := k in (l ++ l', r)
      | None => (l, Raise e)
      end
  | ok => ok
  end.

Notation "x <- m ;; k" := (py_bind m (λ x, k))
  (at level 100, m at next level, right associativity,
   format "'[v' x  <-  m  ;; '/' k ']'").
Notation "m ;;; k" := (py_bind m (λ _, k))
  (at level 100, right associativity,
   format "'[v' m  ;;; '/' k ']'").

(** ** Python strings *)

(** Truthiness of a string and of an optional string ([None] is falsy). *)
Definition truthy (s : string) : bool :=
  match s with EmptyString => false | String _ _ => true end.

Definition truthy_opt (o : option string) : bool :=
  match o with None => false | Some s => truthy s end.

(** The line terminator. *)
Definition LF : string := String (ascii_of_nat 10) EmptyString.

(** The characters [str.strip()] removes, on ASCII text: TAB, LF, VT, FF, CR,
    the four separators 0x1c to 0x1f, and the space.  Strings are ASCII
    here; the Unicode white space that [str.strip()] removes as well
    (U+0085, U+00A0 and the like) is outside the model. *)
Definition is_space (c : ascii) : bool :=
  let n := nat_of_ascii c in
  ((9 <=? n)%nat && (n <=? 13)%nat) || ((28 <=? n)%nat && (n <=? 32)%nat).

Fixpoint lstrip (s : string) : string :=
  match s with
  | String c s' => if is_space c then lstrip s' else s
  | EmptyString => EmptyString
  end.

Definition rstrip (s : string) : string := String.rev (lstrip (String.rev s)).

Definition strip (s : string) : string := rstrip (lstrip s).

(** ** The outside world *)

(** [boto3.Session(profile_name=...)]. *)
Record Session := { profile_name : string }.

(** A boto3 client: where its credentials come from ([None] for the ambient
    default chain, [Some p] for the session of profile [p]), the service and
    the region. *)
Record Client := {
  credentials : option string;
  service_name : string;
  region_name : string
}.

(** The provider's description of a machine image. *)
Record Image := {
  ImageId : string;
  Name : string;
  CreationDate : string;
  OwnerId : string
}.

Record World := {
  (** [subprocess.getoutput(cmd)] *)
  getoutput : string → Result string;
  (** [os.path.isfile(path)] *)
  isfile : string → bool;
  (** [open(path)] followed by the iteration over the lines of the file;
      each line keeps its line terminator *)
  readlines : string → Result (list string);
  (** the failure, if any, of [boto3.Session(profile_name=p)] *)
  session_failure : string → option exn;
  (** the failure, if any, of creating a client for a service and region
      from the given credentials *)
  client_failure : option string → string → string → option exn;
  (** [client.describe_images(Owners=['amazon'],
      Filters=[{'Name': 'name', 'Values': values}])['Images']] *)
  describe_images : Client → list string → Result (list Image);
  (** [client.describe_regions()['Regions']], each with its ['RegionName'] *)
  describe_regions : Client → Result (list string);
  (** [client.get_caller_identity()] *)
  get_caller_identity : Client → Result (gmap string (gmap string pyval))
}.

Definition boto3_Session (w : World) (profile : string) : Result Session :=
  match session_failure w profile with
  | Some e => Raise e
  | None => Ok {| profile_name := profile |}
  end.

Definition Session_client (w : World) (s : Session) (service region : string)
  : Result Client :=
  match client_failure w (Some (profile_name s)) service region with
  | Some e => Raise e
  | None => Ok {| credentials := Some (profile_name s);
                  service_name := service; region_name := region |}
  end.

Definition boto3_client (w : World) (service region : string) : Result Client :=
  match client_failure w None service region with
  | Some e => Raise e
  | None => Ok {| credentials := None;
                  service_name := service; region_name := region |}
  end.

(** ** Python containers *)

(** [d[k]] on a dictionary with string keys. *)
Definition getitem {V} (d : gmap string V) (k : string) : Py V :=
  match d !! k with
  | Some v => py_ret v
  | None => py_raise (KeyError k)
  end.

(** [l[0]] on a list. *)
Definition first {A} (l : list A) : Py A :=
  match l with
  | x :: _ => py_ret x
  | [] => py_raise IndexError
  end.

(** The conversion [%d] applied to a value inside a [%] format. *)
Definition percent_d (v : pyval) : Py Z :=
  match v with
  | VInt n => py_ret n
  | _ => py_raise TypeError
  end.

Definition pyval_eqb (a b : pyval) : bool :=
  match a, b with
  | VNone, VNone => true
  | VInt m, VInt n => Z.eqb m n
  | VStr s, VStr t => String.eqb s t
  | _, _ => false
  end.

(** * pyaws/session.py *)

Module session.

(** [DEFAULT_REGION = os.environ['AWS_DEFAULT_REGION'] or 'us-east-1']
    (line 18), evaluated when the module is imported. *)
Definition DEFAULT_REGION (environ : gmap string string) : Py string :=
  v <- getitem environ "AWS_DEFAULT_REGION";;
  py_ret (if truthy v then v else "us-east-1").

Section functions.

Variable w : World.

(** The table imported from [pyaws.core.oscodes_unix] (or [oscodes_win]);
    the module that defines it is not part of the sources at hand. *)
Variable exit_codes : gmap string (gmap string pyval).

(** The value [DEFAULT_REGION] was bound to when the module was imported;
    it is the default of [boto3_session]'s [region] parameter. *)
Variable default_region : string.

(** The command line run by [_profile_prefix] for a profile name. *)
Definition access_key_command (profile : string) : string :=
  let stderr := " 2>/dev/null" in
  "aws configure get profile." +:+ profile +:+ ".aws_access_key_id " +:+ stderr.

(** Lines 21-49.  Both [return] statements of the [try] block and the final
    [return None] are the value of the block. *)
Definition _profile_prefix (profile : string) (prefix : string) : Py (option string) :=
  let tempProfile := prefix +:+ "-" +:+ profile in
  py_try
    (out <- py_lift (getoutput w (access_key_command profile));;
     if truthy out then py_ret (Some profile)
     else
       out' <- py_lift (getoutput w (access_key_command tempProfile));;
       if truthy out' then py_ret (Some tempProfile)
       else py_ret None)
    (λ e, Some (py_emit (Event LogException "_profile_prefix" [VExn e]);;;
                py_raise e)).

(** The default of the [prefix] parameter. *)
Definition prefix_default : string := "gcreds".

(** The argument of [parse_profiles]: a list of names or one string. *)
Inductive profiles_arg :=
  | ArgList (names : list string)
  | ArgStr (s : string).

(** What [parse_profiles] returns: a list, or the bare value of one call of
    [_profile_prefix]. *)
Inductive profiles_ret :=
  | RetList (l : list (option string))
  | RetOne (o : option string).

(** [[_profile_prefix(x.strip()) for x in profiles]] and the loop
    [for line in f1: profile_list.append(_profile_prefix(line.strip()))]. *)
Fixpoint prefix_each (xs : list string) (profile_list : list (option string))
  : Py (list (option string)) :=
  match xs with
  | [] => py_ret profile_list
  | x :: xs' =>
      p <- _profile_prefix (strip x) prefix_default;;
      prefix_each xs' (profile_list ++ [p])
  end.

(** Lines 52-86. *)
Definition parse_profiles (profiles : profiles_arg) : Py profiles_ret :=
  let profile_list := [] in
  py_try
    (match profiles with
     | ArgList names =>
         l <- prefix_each names [];;
         py_ret (RetList l)
     | ArgStr path =>
         if isfile w path then
           lines <- py_lift (readlines w path);;
           profile_list <- prefix_each lines profile_list;;
           py_ret (RetList profile_list)
         else
           p <- _profile_prefix (strip path) prefix_default;;
           py_ret (RetOne p)
     end)
    (λ e, Some (py_emit (Event LogException "parse_profiles" [VExn e]);;;
                py_raise e)).

(** Lines 89-117.  The [try] block yields [Some client] when its [return]
    is executed and [None] when control leaves it normally. *)
Definition boto3_session (service region : string) (profile : option string)
  : Py Client :=
  returned <-
    py_try
      (if truthy_opt profile && negb (bool_decide (profile = Some "default")) then
         session <- py_lift (boto3_Session w (default EmptyString profile));;
         client <- py_lift (Session_client w session service region);;
         py_ret (Some client)
       else py_ret None)
      (λ e, match e with
            | ClientError code message =>
                Some (py_emit (Event LogException "boto3_session"
                                 [VStr code; VStr message]);;;
                      py_raise e)
            | ProfileNotFound _ =>
                Some (py_emit (Event Stdout "boto3_session"
                                 [VOpt profile; VStr "FAIL"]);;;
                      py_emit (Event LogWarning "boto3_session" [VOpt profile]);;;
                      py_ret None)
            | _ => None
            end);;
  match returned with
  | Some client => py_ret client
  | None => py_lift (boto3_client w service region)
  end.

(** Lines 120-150. *)
Definition authenticated (profile : option string) : Py bool :=
  py_try
    (sts_client <- boto3_session "sts" default_region profile;;
     response <- py_lift (get_caller_identity w sts_client);;
     metadata <- getitem response "ResponseMetadata";;
     httpstatus <- getitem metadata "HTTPStatusCode";;
     if pyval_eqb httpstatus (VInt 200) then py_ret true
     else py_ret false)
    (λ e, match e with
          | ClientError code message =>
              Some
                ((if String.eqb code "InvalidClientTokenId" then
                    entry <- getitem exit_codes "EX_NOPERM";;
                    c <- getitem entry "Code";;
                    n <- percent_d c;;
                    py_emit (Event LogInfo "authenticated" [VOpt profile; VInt n])
                  else if String.eqb code "ExpiredToken" then
                    entry <- getitem exit_codes "EX_CONFIG";;
                    c <- getitem entry "Code";;
                    n <- percent_d c;;
                    py_emit (Event LogInfo "authenticated" [VOpt profile; VInt n])
                  else
                    py_emit (Event LogException "authenticated" [VStr message]));;;
                 py_ret false)
          | _ => Some (py_ret false)
          end).

End functions.

End session.

(** * pyaws/ec2/current_ami.py *)

Module current_ami.

(** [DEFAULT_REGION = os.environ['AWS_DEFAULT_REGION']] (line 24): what the
    statement evaluates to, taken on its own.  An import of the module does
    not get as far as this line, see [import_module]. *)
Definition DEFAULT_REGION (environ : gmap string string) : Py string :=
  getitem environ "AWS_DEFAULT_REGION".


(** What the lookup functions return: [amis], from region to image
    identifier, or [metadata], from region to image record. *)
Inductive lookup_result :=
  | Amis (amis : gmap string string)
  | Metadata (metadata : gmap string Image).

Section functions.

Variable w : World.

(** The default region of the imported [boto3_session]. *)
Variable default_region : string.

(** Lines 27-37. *)
Definition get_regions (profile : option string) : Py (list string) :=
  client <-
    py_try
      (session.boto3_session w "ec2" default_region profile)
      (λ e, match e with
            | ClientError _ _ =>
                Some (py_emit (Event LogException "get_regions" [VExn e]);;;
                      py_raise e)
            | _ => None
            end);;
  py_lift (describe_regions w client).

(** Lines 51-54, the same in the three lookup functions. *)
Definition target_regions (profile region : option string) : Py (list string) :=
  if truthy_opt region then py_ret [default EmptyString region]
  else get_regions profile.

(** The two calls at the head of the loop's [try] block (lines 59-69 and
    108-120): the client for the region, then the image query with the
    name patterns [values]. *)
Definition region_images (values : list string) (profile : option string)
    (region : string) : Py (list Image) :=
  client <- session.boto3_session w "ec2" region profile;;
  py_lift (describe_images w client values).

(** The [except] clauses of the loop (lines 72-81 and 123-132): [continue]
    on a [ClientError], leaving both dictionaries as they were; log and
    re-raise anything else. *)
Definition region_handlers (fn : string)
    (amis : gmap string string) (metadata : gmap string Image) (e : exn)
  : option (Py (gmap string string * gmap string Image)) :=
  match e with
  | ClientError _ _ =>
      Some (py_emit (Event LogException fn [VExn e]);;;
            py_ret (amis, metadata))
  | _ =>
      Some (py_emit (Event LogException fn [VExn e]);;;
            py_raise e)
  end.

Definition amazonlinux1_values : list string :=
  ["amzn-ami-hvm-2018.??.?.2018????-x86_64-gp2"].

Definition amazonlinux2_values : list string :=
  ["amzn2-ami-hvm-????.??.?.2018????.?-x86_64-gp2";
   "amzn2-ami-hvm-????.??.?.2018????-x86_64-gp2"].

(** Lines 57-81: the loop of [amazonlinux1] over the remaining regions. *)
Fixpoint amazonlinux1_loop (profile : option string) (regions : list string)
    (amis : gmap string string) (metadata : gmap string Image)
  : Py (gmap string string * gmap string Image) :=
  match regions with
  | [] => py_ret (amis, metadata)
  | region :: regions' =>
      dicts <-
        py_try
          (images <- region_images amazonlinux1_values profile region;;
           image0 <- first images;;
           let metadata := <[region := image0]> metadata in
           let amis := <[region := ImageId image0]> amis in
           py_ret (amis, metadata))
          (region_handlers "amazonlinux1" amis metadata);;
      amazonlinux1_loop profile regions' dicts.1 dicts.2
  end.

(** Lines 40-84. *)
Definition amazonlinux1 (profile region : option string) (detailed debug : bool)
  : Py lookup_result :=
  regions <- target_regions profile region;;
  dicts <- amazonlinux1_loop profile regions ∅ ∅;;
  if detailed then py_ret (Metadata dicts.2)
  else py_ret (Amis dicts.1).

(** Lines 104-132: the loop of [amazonlinux2].  The assignment
    [profile = 'default'] of lines 106-107 cannot fail and stays in force
    for the later iterations. *)
Fixpoint amazonlinux2_loop (profile : option string) (regions : list string)
    (amis : gmap string string) (metadata : gmap string Image)
  : Py (gmap string string * gmap string Image) :=
  match regions with
  | [] => py_ret (amis, metadata)
  | region :: regions' =>
      let profile := if negb (truthy_opt profile) then Some "default" else profile in
      dicts <-
        py_try
          (images <- region_images amazonlinux2_values profile region;;
           image0 <- first images;;
           let metadata := <[region := image0]> metadata in
           let amis := <[region := ImageId image0]> amis in
           py_ret (amis, metadata))
          (region_handlers "amazonlinux2" amis metadata);;
      amazonlinux2_loop profile regions' dicts.1 dicts.2
  end.

(** Lines 87-135. *)
Definition amazonlinux2 (profile region : option string) (detailed debug : bool)
  : Py lookup_result :=
  regions <- target_regions profile region;;
  dicts <- amazonlinux2_loop profile regions ∅ ∅;;
  if detailed then py_ret (Metadata dicts.2)
  else py_ret (Amis dicts.1).

(** The name patterns of the query of [redhat] (lines 163-165): none. *)
Definition redhat_values : list string := [].

(** Lines 155-179: the loop of [redhat]. *)
Fixpoint redhat_loop (profile : option string) (regions : list string)
    (amis : gmap string string) (metadata : gmap string Image)
  : Py (gmap string string * gmap string Image) :=
  match regions with
  | [] => py_ret (amis, metadata)
  | region :: regions' =>
      dicts <-
        py_try
          (images <- region_images redhat_values profile region;;
           image0 <- first images;;
           let metadata := <[region := image0]> metadata in
           let amis := <[region := ImageId image0]> amis in
           py_ret (amis, metadata))
          (region_handlers "redhat" amis metadata);;
      redhat_loop profile regions' dicts.1 dicts.2
  end.

(** Lines 138-182. *)
Definition redhat (profile region : option string) (detailed debug : bool)
  : Py lookup_result :=
  regions <- target_regions profile region;;
  dicts <- redhat_loop profile regions ∅ ∅;;
  if detailed then py_ret (Metadata dicts.2)
  else py_ret (Amis dicts.1).

End functions.

(** Reading a returned mapping: its keys and its value at a region, the
    value being an image identifier or a full record. *)
Inductive entry :=
  | EntryId (id : string)
  | EntryRecord (image : Image).

Definition keys (res : lookup_result) : gset string :=
  match res with
  | Amis amis => dom amis
  | Metadata metadata => dom metadata
  end.

Definition at_region (res : lookup_result) (region : string) : option entry :=
  match res with
  | Amis amis => EntryId <$> amis !! region
  | Metadata metadata => EntryRecord <$> metadata !! region
  end.

End current_ami.

(** * Example worlds *)

Module examples.

(** A world in which nothing fails and nothing is configured. *)
Definition quiet : World := {|
  getoutput := λ _, Ok EmptyString;
  isfile := λ _, false;
  readlines := λ _, Raise (OtherError "FileNotFoundError");
  session_failure := λ _, None;
  client_failure := λ _ _ _, None;
  describe_images := λ _ _, Ok [];
  describe_regions := λ _, Ok [];
  get_caller_identity := λ _, Ok ∅
|}.

(** The local configuration holds a key for [dev] and, under the prefixed
    name only, for [ops]; [stage] has none. *)
Definition configured : World := {|
  getoutput := λ cmd,
    if String.eqb cmd "aws configure get profile.dev.aws_access_key_id  2>/dev/null"
    then Ok "AKIADEV"
    else if String.eqb cmd
              "aws configure get profile.gcreds-ops.aws_access_key_id  2>/dev/null"
    then Ok "ASIAOPS"
    else Ok EmptyString;
  isfile := String.eqb "profiles.txt";
  readlines := λ path,
    if String.eqb path "profiles.txt" then Ok ["dev" +:+ LF; LF; "  ops " +:+ LF]
    else Raise (OtherError "FileNotFoundError");
  session_failure := λ p,
    if String.eqb p "dev" then None else Some (ProfileNotFound p);
  client_failure := λ creds _ _,
    if bool_decide (creds = Some "dev") then Some (ClientError "AuthFailure" "denied")
    else None;
  describe_images := λ _ _, Ok [];
  describe_regions := λ _, Ok [];
  get_caller_identity := λ _, Ok ∅
|}.

(** An exit-code table with the two entries [authenticated] reads. *)
Definition sample_exit_codes : gmap string (gmap string pyval) :=
  {[ "EX_NOPERM" := {[ "Code" := VInt 77; "Reason" := VStr "Permission denied" ]};
     "EX_CONFIG" := {[ "Code" := VInt 78; "Reason" := VStr "Configuration error" ]} ]}.

(** The identity service answers 200 to ambient credentials and rejects the
    token of profile [dev]; profile [ops] is unknown locally. *)
Definition sts : World := {|
  getoutput := λ _, Ok EmptyString;
  isfile := λ _, false;
  readlines := λ _, Raise (OtherError "FileNotFoundError");
  session_failure := λ p,
    if String.eqb p "dev" then None else Some (ProfileNotFound p);
  client_failure := λ _ _ _, None;
  describe_images := λ _ _, Ok [];
  describe_regions := λ _, Ok [];
  get_caller_identity := λ client,
    match credentials client with
    | None => Ok {[ "ResponseMetadata" := {[ "HTTPStatusCode" := VInt 200 ]} ]}
    | Some _ => Raise (ClientError "InvalidClientTokenId" "invalid token")
    end
|}.

(** Three images of the provider. *)
Definition image_a : Image :=
  {| ImageId := "ami-0a"; Name := "amzn-ami-hvm-2018.03.0.20180811-x86_64-gp2";
     CreationDate := "2018-08-11"; OwnerId := "amazon" |}.

Definition image_a_old : Image :=
  {| ImageId := "ami-09"; Name := "amzn-ami-hvm-2018.03.0.20180508-x86_64-gp2";
     CreationDate := "2018-05-08"; OwnerId := "amazon" |}.

(** A provider that enumerates the regions [names].  Whatever the name
    patterns, it has two images in [region-a], none in [region-b], and
    rejects the image query in [region-c] with a client error. *)
Definition provider (names : list string) : World := {|
  getoutput := λ _, Ok EmptyString;
  isfile := λ _, false;
  readlines := λ _, Raise (OtherError "FileNotFoundError");
  session_failure := λ _, None;
  client_failure := λ _ _ _, None;
  describe_images := λ client _,
    if String.eqb (region_name client) "region-a" then Ok [image_a; image_a_old]
    else if String.eqb (region_name client) "region-c"
    then Raise (ClientError "RequestLimitExceeded" "transport error")
    else Ok [];
  describe_regions := λ _, Ok names;
  get_caller_identity := λ _, Ok ∅
|}.

(** The aws command line cannot be started; the provider rejects every
    call made with the credentials of a profile. *)
Definition no_shell : World := {|
  getoutput := λ _, Raise (OtherError "OSError");
  isfile := String.eqb "profiles.txt";
  readlines := λ _, Raise (OtherError "PermissionError");
  session_failure := λ p,
    if String.eqb p "dev" then Some (KeyError "credential_process") else None;
  client_failure := λ _ _ _, None;
  describe_images := λ client _,
    match credentials client with
    | None => Ok [image_a]
    | Some _ => Raise (ClientError "AuthFailure" "denied")
    end;
  describe_regions := λ client,
    match credentials client with
    | None => Ok ["region-a"]
    | Some _ => Raise (ClientError "UnauthorizedOperation" "denied")
    end;
  get_caller_identity := λ _, Raise (ClientError "ExpiredToken" "expired")
|}.

(** The endpoint of every region but [region-a] cannot be reached: the
    failure is a connection error of the transport, not a client error. *)
Definition unreachable : World := {|
  getoutput := λ _, Ok EmptyString;
  isfile := λ _, false;
  readlines := λ _, Raise (OtherError "FileNotFoundError");
  session_failure := λ _, None;
  client_failure := λ _ _ _, None;
  describe_images := λ client _,
    if String.eqb (region_name client) "region-a" then Ok [image_a]
    else Raise (OtherError "EndpointConnectionError");
  describe_regions := λ _, Ok ["region-a"; "region-d"];
  get_caller_identity := λ _, Ok ∅
|}.

(** The aws command line answers, with no key for any name; the file of
    profile names exists but cannot be opened. *)
Definition locked_file : World := {|
  getoutput := λ _, Ok EmptyString;
  isfile := String.eqb "profiles.txt";
  readlines := λ _, Raise (OtherError "PermissionError");
  session_failure := λ _, None;
  client_failure := λ _ _ _, None;
  describe_images := λ _ _, Ok [];
  describe_regions := λ _, Ok [];
  get_caller_identity := λ _, Ok ∅
|}.

(** A provider that tells the name patterns apart: it answers like
    [provider] to a query with no name pattern, and rejects a query that
    gives one. *)
Definition by_pattern : World := {|
  getoutput := λ _, Ok EmptyString;
  isfile := λ _, false;
  readlines := λ _, Raise (OtherError "FileNotFoundError");
  session_failure := λ _, None;
  client_failure := λ _ _ _, None;
  describe_images := λ client values,
    match values with
    | [] => describe_images (provider []) client values
    | _ :: _ => Raise (OtherError "InvalidParameterValue")
    end;
  describe_regions := λ _, Ok ["region-c"; "region-a"];
  get_caller_identity := λ _, Ok ∅
|}.

End examples.

(** * The vocabulary of the statements *)

(** The construction of the profile-scoped client inside the [try] block of
    [boto3_session]: the session of the profile, then its client. *)
Definition scoped_client (w : World) (service region profile : string)
  : Result Client :=
  match boto3_Session w profile with
  | Ok s => Session_client w s service region
  | Raise e => Raise e
  end.

(** The two messages of the [ProfileNotFound] clause. *)
Definition not_found_warnings (profile : string) : list event :=
  [Event Stdout "boto3_session" [VStr profile; VStr "FAIL"];
   Event LogWarning "boto3_session" [VStr profile]].

(** What the local configuration answers when asked for the access key
    stored under a profile name: the output of the aws command line for the
    key [profile.<name>.aws_access_key_id], its error stream discarded. *)
Definition stored_key (w : World) (name : string) : Result string :=
  getoutput w
    ("aws configure get profile." +:+ name +:+ ".aws_access_key_id  2>/dev/null").

(** The identity check inside the [try] block of [authenticated]: the client
    for the identity service, then the call of [get_caller_identity]. *)
Definition identity_check (w : World) (default_region : string)
    (profile : option string) : Py (gmap string (gmap string pyval)) :=
  sts_client <- session.boto3_session w "sts" default_region profile;;
  py_lift (get_caller_identity w sts_client).

(** The transport status of a response, when it is there. *)
Definition http_status (response : gmap string (gmap string pyval)) : option pyval :=
  response !! "ResponseMetadata" ≫= (.!! "HTTPStatusCode").

(** The exit-code table has an integer ['Code'] under a name. *)
Definition has_code (exit_codes : gmap string (gmap string pyval)) (name : string)
  : Prop :=
  ∃ n, exit_codes !! name ≫= (.!! "Code") = Some (VInt n).

(** [o] is what [_profile_prefix] returns for the stripped name [x]. *)
Definition resolves (w : World) (x : string) (o : option string) : Prop :=
  result (session._profile_prefix w (strip x) session.prefix_default) = Ok o.

(** A line is blank when nothing is left of it after [strip()]. *)
Definition blank (line : string) : bool := negb (truthy (strip line)).

(** The lines of a file that are not blank. *)
Definition non_blank_lines (lines : list string) : list string :=
  filter (λ line, blank line = false) lines.

(** The two lookup functions under the name the specification gives them. *)
Inductive family := AmazonLinux1 | AmazonLinux2.

Definition findLatestImage (w : World) (default_region : string) (f : family)
  : option string → option string → bool → bool → Py current_ami.lookup_result :=
  match f with
  | AmazonLinux1 => current_ami.amazonlinux1 w default_region
  | AmazonLinux2 => current_ami.amazonlinux2 w default_region
  end.

Definition values_of (f : family) : list string :=
  match f with
  | AmazonLinux1 => current_ami.amazonlinux1_values
  | AmazonLinux2 => current_ami.amazonlinux2_values
  end.

(** The outcome of the image query of one region: a list of images, or the
    exception raised while obtaining the client or running the query. *)
Definition region_query (w : World) (f : family) (profile : option string)
    (region : string) : Result (list Image) :=
  result (current_ami.region_images w (values_of f) profile region).

(** The query of the region raised a provider client error. *)
Definition client_error (q : Result (list Image)) : Prop :=
  ∃ code message, q = Raise (ClientError code message).

(** The query of the region returned at least one image. *)
Definition has_image (q : Result (list Image)) : Prop :=
  ∃ image rest, q = Ok (image :: rest).

(** The loop in terms of the outcomes of the regions: what it leaves in the
    two dictionaries, or the exception that ends it. *)
Fixpoint collect (fetch : string → Result (list Image)) (regions : list string)
    (amis : gmap string string) (metadata : gmap string Image)
  : Result (gmap string string * gmap string Image) :=
  match regions with
  | [] => Ok (amis, metadata)
  | region :: regions' =>
      match fetch region with
      | Ok (image0 :: _) =>
          collect fetch regions'
            (<[region := ImageId image0]> amis) (<[region := image0]> metadata)
      | Ok [] => Raise IndexError
      | Raise (ClientError _ _) => collect fetch regions' amis metadata
      | Raise e => Raise e
      end
  end.

(** The first image of a region that was visited and answered with one. *)
Definition found (fetch : string → Result (list Image)) (regions : list string)
    (k : string) : option Image :=
  if decide (k ∈ regions) then
    match fetch k with Ok (image0 :: _) => Some image0 | _ => None end
  else None.

(** The profile the loop of [amazonlinux2] works with. *)
Definition or_default (profile : option string) : option string :=
  if negb (truthy_opt profile) then Some "default" else profile.

(** A region the loop gets past: its query raised a client error or
    returned at least one image. *)
Definition tolerated (q : Result (list Image)) : Prop :=
  client_error q ∨ has_image q.

(** The tolerant lookup as the specification words it: whenever every
    target region either raises a client error or answers with some list of
    images, possibly empty, the lookup returns a mapping whose keys are
    exactly the regions that answered with at least one image. *)
Definition skips_empty_regions (w : World) (default_region : string) (f : family)
    (profile region : option string) (detailed debug : bool) : Prop :=
  ∀ regions,
    result (current_ami.target_regions w default_region profile region)
    = Ok regions →
    Forall (λ r, client_error (region_query w f profile r)
                 ∨ ∃ images, region_query w f profile r = Ok images) regions →
    ∃ res,
      result (findLatestImage w default_region f profile region detailed debug)
      = Ok res
      ∧ ∀ r, r ∈ current_ami.keys res
             ↔ r ∈ regions ∧ has_image (region_query w f profile r).

(** The first-image mapping as the specification words it: every target
    region whose query answers with a non-empty list is mapped by the
    lookup to the first image of that list, whatever the other regions
    answer. *)
Definition maps_every_answering_region (w : World) (default_region : string)
    (f : family) (profile region : option string) (detailed debug : bool) : Prop :=
  ∀ regions r image rest,
    result (current_ami.target_regions w default_region profile region)
    = Ok regions →
    r ∈ regions →
    region_query w f profile r = Ok (image :: rest) →
    ∃ res,
      result (findLatestImage w default_region f profile region detailed debug)
      = Ok res
      ∧ current_ami.at_region res r
        = Some (if detailed then current_ami.EntryRecord image
                else current_ami.EntryId (ImageId image)).


(** The length of the result as the specification words it: applied to the
    path of a file, [parse_profiles] returns as many elements as the file
    has non-blank lines. *)
Definition one_element_per_non_blank_line (w : World) (path : string) : Prop :=
  ∀ lines,
    isfile w path = true → readlines w path = Ok lines →
    ∃ l,
      result (session.parse_profiles w (session.ArgStr path))
      = Ok (session.RetList l)
      ∧ List.length l = List.length (non_blank_lines lines).

(** A profile argument for which [boto3_session] goes straight to the
    ambient credentials: absent, empty, or the literal ['default']. *)
Definition ambient (profile : option string) : Prop :=
  truthy_opt profile = false ∨ profile = Some "default".

(** The record [logger.exception] leaves for an exception caught in the
    function [fn]. *)
Definition logged (fn : string) (e : exn) : event :=
  Event LogException fn [VExn e].

(** The outcome of the image query of one region in [redhat]. *)
Definition redhat_query (w : World) (profile : option string) (region : string)
  : Result (list Image) :=
  result (current_ami.region_images w current_ami.redhat_values profile region).

(** The result of a lookup, read off the two dictionaries of its loop. *)
Definition selected (detailed : bool)
    (dicts : gmap string string * gmap string Image) : current_ami.lookup_result :=
  if detailed then current_ami.Metadata dicts.2 else current_ami.Amis dicts.1.

(** A string does not begin with a character that [strip()] removes. *)
Definition clean_head (s : string) : Prop :=
  match s with
  | String c _ => is_space c = false
  | EmptyString => True
  end.

(** Reading the integer ['Code'] of an entry of the exit-code table, as
    the two [logger.info] calls of [authenticated] do for their message. *)
Definition exit_code (exit_codes : gmap string (gmap string pyval)) (name : string)
  : Py Z :=
  entry <- getitem exit_codes name;;
  c <- getitem entry "Code";;
  percent_d c.

(** The name under which each lookup function logs. *)
Definition function_name (f : family) : string :=
  match f with
  | AmazonLinux1 => "amazonlinux1"
  | AmazonLinux2 => "amazonlinux2"
  end.

(** * Properties *)

(** ** The monad *)

Lemma result_bind {A B} (m : Py A) (k : A → Py B) :
  result (py_bind m k) =
  match result m with Ok a => result (k a) | Raise e => Raise e end.
Proof.
  destruct m as [l [a|e]]; simpl; [|done].
  by destruct (k a).
Qed.

Lemma result_try {A} (m : Py A) (h : exn → option (Py A)) :
  result (py_try m h) =
  match result m with
  | Ok a => Ok a
  | Raise e => match h e with Some k => result k | None => Raise e end
  end.
Proof.
  destruct m as [l [a|e]]; simpl; [done|].
  destruct (h e) as [[l' r]|]; done.
Qed.

Lemma result_lift {A} (r : Result A) : result (py_lift r) = r.
Proof. done. Qed.

Lemma result_ret {A} (a : A) : result (py_ret a) = Ok a.
Proof. done. Qed.

Lemma result_raise {A} (e : exn) : result (py_raise (A:=A) e) = Raise e.
Proof. done. Qed.

Lemma output_bind {A B} (m : Py A) (k : A → Py B) :
  output (py_bind m k) =
  output m ++ match result m with Ok a => output (k a) | Raise _ => [] end.
Proof.
  destruct m as [l [a|e]]; simpl; [|by rewrite app_nil_r].
  by destruct (k a).
Qed.

Lemma output_try {A} (m : Py A) (h : exn → option (Py A)) :
  output (py_try m h) =
  output m ++ match result m with
              | Ok _ => []
              | Raise e => match h e with Some k => output k | None => [] end
              end.
Proof.
  destruct m as [l [a|e]]; simpl; [by rewrite app_nil_r|].
  destruct (h e) as [[l' r]|]; simpl; [done|by rewrite app_nil_r].
Qed.

Lemma py_eq {A} (m : Py A) l r : output m = l → result m = r → m = (l, r).
Proof. destruct m. simpl. by intros -> ->. Qed.

Lemma truthy_true (s : string) : truthy s = true ↔ s ≠ EmptyString.
Proof. destruct s; simpl; split; congruence. Qed.

Lemma truthy_false (s : string) : truthy s = false ↔ s = EmptyString.
Proof. destruct s; simpl; split; congruence. Qed.

(** ** [boto3_session] *)

Lemma boto3_session_ambient w service region profile :
  truthy_opt profile = false ∨ profile = Some "default" →
  session.boto3_session w service region profile
  = py_lift (boto3_client w service region).
Proof.
  intros H. unfold session.boto3_session.
  assert (truthy_opt profile && negb (bool_decide (profile = Some "default"))
          = false) as ->; [|done].
  destruct H as [->| ->]; [done|].
  rewrite bool_decide_eq_true_2; [|done]. apply andb_false_r.
Qed.

Lemma boto3_session_scoped w service region p :
  p ≠ EmptyString → p ≠ "default" →
  session.boto3_session w service region (Some p) =
  match scoped_client w service region p with
  | Ok client => ([], Ok client)
  | Raise (ClientError code message) =>
      ([Event LogException "boto3_session" [VStr code; VStr message]],
       Raise (ClientError code message))
  | Raise (ProfileNotFound _) =>
      (not_found_warnings p, boto3_client w service region)
  | Raise e => ([], Raise e)
  end.
Proof.
  intros Hne Hnd. unfold session.boto3_session, scoped_client.
  assert (truthy_opt (Some p) && negb (bool_decide (Some p = Some "default"))
          = true) as ->.
  { simpl. rewrite (proj2 (truthy_true p) Hne). simpl.
    rewrite bool_decide_eq_false_2; [done|congruence]. }
  simpl. destruct (boto3_Session w p) as [s|e]; simpl.
  - destruct (Session_client w s service region) as [c|e]; simpl; [done|].
    by destruct e.
  - by destruct e.
Qed.

(** C7: [boto3_session] called with the profile ["default"] returns what it
    returns with the profile absent, for every service and region; both
    calls skip the profile-scoped construction and are the client built by
    [boto3.client(service, region_name=region)] from ambient credentials,
    with no message emitted. *)
Theorem boto3_session_default_is_absent w service region :
  session.boto3_session w service region (Some "default")
  = session.boto3_session w service region None
  ∧ session.boto3_session w service region None
    = ([], boto3_client w service region).
Proof.
  rewrite !boto3_session_ambient by first [by left | by right]. done.
Qed.

(** C4: for a named profile (non-empty and not ["default"]), when the
    profile-scoped construction raises [ProfileNotFound], [boto3_session]
    emits the two warnings and its outcome is that of building the client
    from ambient credentials for the same service and region (that client
    itself whenever the ambient construction succeeds); when the
    construction raises a [ClientError], the same [ClientError] is raised
    to the caller. *)
Theorem boto3_session_profile_errors w service region p :
  p ≠ EmptyString → p ≠ "default" →
  (∀ q, scoped_client w service region p = Raise (ProfileNotFound q) →
     output (session.boto3_session w service region (Some p))
       = not_found_warnings p
     ∧ result (session.boto3_session w service region (Some p))
       = boto3_client w service region
     ∧ (client_failure w None service region = None →
        result (session.boto3_session w service region (Some p))
        = Ok {| credentials := None;
                service_name := service; region_name := region |}))
  ∧ (∀ code message,
       scoped_client w service region p = Raise (ClientError code message) →
       result (session.boto3_session w service region (Some p))
       = Raise (ClientError code message)).
Proof.
  intros Hne Hnd. rewrite boto3_session_scoped by done. split.
  - intros q ->. simpl. split_and!; [done..|].
    intros H. unfold boto3_client. by rewrite H.
  - by intros code message ->.
Qed.

Lemma boto3_session_profile_errors_witness :
  result (session.boto3_session examples.configured "ec2" "eu-west-1" (Some "ops"))
  = Ok {| credentials := None; service_name := "ec2"; region_name := "eu-west-1" |}
  ∧ result (session.boto3_session examples.configured "ec2" "eu-west-1" (Some "dev"))
    = Raise (ClientError "AuthFailure" "denied").
Proof.
  split.
  - refine (proj2 (proj2 (proj1
      (boto3_session_profile_errors examples.configured "ec2" "eu-west-1" "ops"
         _ _) "ops" _)) _); done.
  - refine (proj2
      (boto3_session_profile_errors examples.configured "ec2" "eu-west-1" "dev"
         _ _) "AuthFailure" "denied" _); done.
Defined.

(** ** [_profile_prefix] *)

(** The command [_profile_prefix] runs for a name is the query of the
    access key stored under that name. *)
Lemma stored_key_command w name :
  getoutput w (session.access_key_command name) = stored_key w name.
Proof. reflexivity. Qed.

Lemma _profile_prefix_result w profile prefix :
  result (session._profile_prefix w profile prefix) =
  match stored_key w profile with
  | Raise e => Raise e
  | Ok k =>
      if truthy k then Ok (Some profile)
      else match stored_key w (prefix +:+ "-" +:+ profile) with
           | Raise e => Raise e
           | Ok k' =>
               if truthy k' then Ok (Some (prefix +:+ "-" +:+ profile))
               else Ok None
           end
  end.
Proof.
  unfold session._profile_prefix.
  rewrite result_try, result_bind, result_lift, stored_key_command.
  destruct (stored_key w profile) as [k|e]; [|done].
  destruct (truthy k); [done|].
  rewrite result_bind, result_lift, stored_key_command.
  destruct (stored_key w _) as [k'|e]; [|done].
  by destruct (truthy k').
Qed.

(** C2: with the fixed prefix ['gcreds'], [_profile_prefix] returns the
    name [P] unchanged when the configuration stores a key under [P]; the
    derived name ['gcreds-' + P] when it stores none under [P] and one under
    the derived name; and [None] when it stores a key under neither. *)
Theorem _profile_prefix_three_cases w P :
  (∀ k, stored_key w P = Ok k → k ≠ EmptyString →
     result (session._profile_prefix w P session.prefix_default) = Ok (Some P))
  ∧ (∀ k, stored_key w P = Ok EmptyString →
       stored_key w ("gcreds" +:+ "-" +:+ P) = Ok k → k ≠ EmptyString →
       result (session._profile_prefix w P session.prefix_default)
       = Ok (Some ("gcreds" +:+ "-" +:+ P)))
  ∧ (stored_key w P = Ok EmptyString →
     stored_key w ("gcreds" +:+ "-" +:+ P) = Ok EmptyString →
     result (session._profile_prefix w P session.prefix_default) = Ok None).
Proof.
  rewrite _profile_prefix_result. unfold session.prefix_default.
  split_and!.
  - intros k -> Hk. by rewrite (proj2 (truthy_true k) Hk).
  - intros k -> -> Hk. simpl. by rewrite (proj2 (truthy_true k) Hk).
  - by intros -> ->.
Qed.

Lemma _profile_prefix_three_cases_witness :
  result (session._profile_prefix examples.configured "dev" "gcreds") = Ok (Some "dev")
  ∧ result (session._profile_prefix examples.configured "ops" "gcreds")
    = Ok (Some "gcreds-ops")
  ∧ result (session._profile_prefix examples.configured "stage" "gcreds") = Ok None.
Proof.
  split_and!.
  - refine (proj1 (_profile_prefix_three_cases examples.configured "dev")
              "AKIADEV" _ _); done.
  - refine (proj1 (proj2 (_profile_prefix_three_cases examples.configured "ops"))
              "ASIAOPS" _ _ _); done.
  - refine (proj2 (proj2 (_profile_prefix_three_cases examples.configured "stage"))
              _ _); done.
Defined.

(** ** [authenticated] *)

Lemma pyval_eqb_eq (a b : pyval) : pyval_eqb a b = true → a = b.
Proof.
  destruct a, b; simpl; try done.
  - intros ?%Z.eqb_eq. congruence.
  - intros ?%String.eqb_eq. congruence.
Qed.

Lemma emit_code_result exit_codes name (f : Z → event) :
  has_code exit_codes name →
  result (entry <- getitem exit_codes name;;
          c <- getitem entry "Code";;
          n <- percent_d c;;
          py_emit (f n)) = Ok tt.
Proof.
  intros [n H]. rewrite result_bind. unfold getitem at 1.
  destruct (exit_codes !! name) as [entry|]; simpl in H; [|done].
  simpl. rewrite result_bind. unfold getitem. by rewrite H.
Qed.

Lemma authenticated_result w exit_codes default_region profile :
  has_code exit_codes "EX_NOPERM" → has_code exit_codes "EX_CONFIG" →
  result (session.authenticated w exit_codes default_region profile) =
  match result (identity_check w default_region profile) with
  | Ok response =>
      Ok (bool_decide (http_status response = Some (VInt 200)))
  | Raise _ => Ok false
  end.
Proof.
  intros Hnoperm Hconfig.
  assert (Hclause : ∀ code message,
    result
      ((if String.eqb code "InvalidClientTokenId" then
          entry <- getitem exit_codes "EX_NOPERM";;
          c <- getitem entry "Code";;
          n <- percent_d c;;
          py_emit (Event LogInfo "authenticated" [VOpt profile; VInt n])
        else if String.eqb code "ExpiredToken" then
          entry <- getitem exit_codes "EX_CONFIG";;
          c <- getitem entry "Code";;
          n <- percent_d c;;
          py_emit (Event LogInfo "authenticated" [VOpt profile; VInt n])
        else
          py_emit (Event LogException "authenticated" [VStr message]));;;
       py_ret false) = Ok false).
  { intros code message. rewrite result_bind.
    destruct (String.eqb code "InvalidClientTokenId");
      [|destruct (String.eqb code "ExpiredToken")].
    - by rewrite (emit_code_result _ _
                    (λ n, Event LogInfo "authenticated" [VOpt profile; VInt n])).
    - by rewrite (emit_code_result _ _
                    (λ n, Event LogInfo "authenticated" [VOpt profile; VInt n])).
    - done. }
  unfold session.authenticated, identity_check, http_status.
  rewrite result_try, !result_bind.
  destruct (result (session.boto3_session w "sts" default_region profile))
    as [client|e].
  - rewrite result_bind, !result_lift.
    destruct (get_caller_identity w client) as [response|e].
    + rewrite result_bind. unfold getitem at 1.
      destruct (response !! "ResponseMetadata") as [metadata|]; [|done].
      rewrite result_ret. cbv beta iota. rewrite result_bind. unfold getitem.
      change (Some metadata ≫= (.!! "HTTPStatusCode"))
        with (metadata !! "HTTPStatusCode").
      destruct (metadata !! "HTTPStatusCode") as [status|]; [|done].
      rewrite result_ret. cbv beta iota.
      destruct (pyval_eqb status (VInt 200)) eqn:Heq.
      * apply pyval_eqb_eq in Heq as ->. by rewrite bool_decide_eq_true_2.
      * rewrite bool_decide_eq_false_2; [done|]. by intros [= ->].
    + destruct e; first [apply Hclause | done].
  - destruct e; first [apply Hclause | done].
Qed.

(** C3: provided the exit-code table has the two integer codes the log
    messages interpolate, [authenticated] never raises and returns a
    boolean for every optional profile: [False] when the identity check
    fails with [InvalidClientTokenId], [False] when it fails with
    [ExpiredToken], [False] when it fails with any other exception, and
    [True] exactly when the check succeeds and the response carries the
    transport status 200. *)
Theorem authenticated_total_boolean w exit_codes default_region profile :
  has_code exit_codes "EX_NOPERM" → has_code exit_codes "EX_CONFIG" →
  (∃ b, result (session.authenticated w exit_codes default_region profile) = Ok b)
  ∧ (∀ message,
       result (identity_check w default_region profile)
       = Raise (ClientError "InvalidClientTokenId" message) →
       result (session.authenticated w exit_codes default_region profile)
       = Ok false)
  ∧ (∀ message,
       result (identity_check w default_region profile)
       = Raise (ClientError "ExpiredToken" message) →
       result (session.authenticated w exit_codes default_region profile)
       = Ok false)
  ∧ (∀ e,
       result (identity_check w default_region profile) = Raise e →
       result (session.authenticated w exit_codes default_region profile)
       = Ok false)
  ∧ (result (session.authenticated w exit_codes default_region profile) = Ok true
     ↔ ∃ response,
         result (identity_check w default_region profile) = Ok response
         ∧ http_status response = Some (VInt 200)).
Proof.
  intros Hnoperm Hconfig. rewrite authenticated_result by done.
  destruct (result (identity_check w default_region profile)) as [response|e].
  - split_and!; [by eexists|done..|].
    split.
    + intros [= H%bool_decide_eq_true]. by exists response.
    + intros (? & [= <-] & H). by rewrite bool_decide_eq_true_2.
  - split_and!; [by eexists|done..|].
    split; [done|]. by intros (? & ? & _).
Qed.

Lemma authenticated_total_boolean_witness :
  result (session.authenticated examples.sts examples.sample_exit_codes
            "us-east-1" (Some "dev")) = Ok false
  ∧ result (session.authenticated examples.sts examples.sample_exit_codes
              "us-east-1" None) = Ok true.
Proof.
  split.
  - refine (proj1 (proj2
      (authenticated_total_boolean examples.sts examples.sample_exit_codes
         "us-east-1" (Some "dev") _ _)) "invalid token" _);
      [by exists 77 | by exists 78 | done].
  - refine (proj2 (proj2 (proj2 (proj2 (proj2
      (authenticated_total_boolean examples.sts examples.sample_exit_codes
         "us-east-1" None _ _))))) _);
      [by exists 77 | by exists 78 |].
    by eexists.
Defined.

(** The table matters: with no entry for ['EX_NOPERM'] the message of the
    [InvalidClientTokenId] clause cannot be built, and the [KeyError] leaves
    [authenticated] from inside the [except] clause. *)
Lemma authenticated_without_exit_codes :
  result (session.authenticated examples.sts ∅ "us-east-1" (Some "dev"))
  = Raise (KeyError "EX_NOPERM").
Proof. done. Qed.

(** ** [parse_profiles] *)

Lemma prefix_each_result w xs os acc :
  Forall2 (resolves w) xs os →
  result (session.prefix_each w xs acc) = Ok (acc ++ os).
Proof.
  intros H. revert acc. induction H as [|x o xs os Hx _ IH]; intros acc; simpl.
  - by rewrite app_nil_r.
  - rewrite result_bind, Hx, IH. by rewrite <- app_assoc.
Qed.

Lemma parse_profiles_list w names os :
  Forall2 (resolves w) names os →
  result (session.parse_profiles w (session.ArgList names))
  = Ok (session.RetList os).
Proof.
  intros H. unfold session.parse_profiles.
  by rewrite result_try, result_bind, (prefix_each_result _ _ os).
Qed.

Lemma parse_profiles_file w path lines os :
  isfile w path = true → readlines w path = Ok lines →
  Forall2 (resolves w) lines os →
  result (session.parse_profiles w (session.ArgStr path))
  = Ok (session.RetList os).
Proof.
  intros Hf Hl H. unfold session.parse_profiles.
  rewrite result_try, Hf, result_bind, result_lift, Hl.
  by rewrite result_bind, (prefix_each_result _ _ os).
Qed.

Lemma parse_profiles_name w name o :
  isfile w name = false → resolves w name o →
  result (session.parse_profiles w (session.ArgStr name))
  = Ok (session.RetOne o).
Proof.
  intros Hf H. unfold session.parse_profiles.
  by rewrite result_try, Hf, result_bind, H.
Qed.

Lemma resolves_all w xs :
  (∀ x, x ∈ xs → ∃ o, resolves w x o) → ∃ os, Forall2 (resolves w) xs os.
Proof.
  induction xs as [|x xs IH]; intros H.
  - by exists [].
  - destruct (H x) as [o Ho]; [by left|].
    destruct IH as [os Hos]; [intros y Hy; apply H; by right|].
    exists (o :: os). by constructor.
Qed.

(** C5, the claim as written fails on a single name: for a string that is
    not the path of a file, [parse_profiles] returns the bare value of
    [_profile_prefix], not a list. *)
Lemma parse_profiles_single_name_not_a_list :
  isfile examples.configured "dev" = false
  ∧ result (session.parse_profiles examples.configured (session.ArgStr "dev"))
    = Ok (session.RetOne (Some "dev"))
  ∧ ¬ ∃ l, result (session.parse_profiles examples.configured (session.ArgStr "dev"))
           = Ok (session.RetList l).
Proof.
  split_and!; [done..|]. by intros [l Hl].
Qed.

(** C5, amended: given a list of names, [parse_profiles] returns the list
    of the values of [_profile_prefix] on each stripped name; given the path
    of a file, the list of its values on each stripped line; given a single
    name that is not the path of a file, the bare value of [_profile_prefix]
    on the stripped name, as the docstring announces. *)
Theorem parse_profiles_by_input w :
  (∀ names os,
     Forall2 (resolves w) names os →
     result (session.parse_profiles w (session.ArgList names))
     = Ok (session.RetList os))
  ∧ (∀ path lines os,
       isfile w path = true → readlines w path = Ok lines →
       Forall2 (resolves w) lines os →
       result (session.parse_profiles w (session.ArgStr path))
       = Ok (session.RetList os))
  ∧ (∀ name o,
       isfile w name = false → resolves w name o →
       result (session.parse_profiles w (session.ArgStr name))
       = Ok (session.RetOne o)).
Proof.
  split_and!.
  - apply parse_profiles_list.
  - apply parse_profiles_file.
  - apply parse_profiles_name.
Qed.

Lemma parse_profiles_by_input_witness :
  result (session.parse_profiles examples.configured
            (session.ArgList [" dev"; "stage"]))
  = Ok (session.RetList [Some "dev"; None])
  ∧ result (session.parse_profiles examples.configured
              (session.ArgStr "profiles.txt"))
    = Ok (session.RetList [Some "dev"; None; Some "gcreds-ops"])
  ∧ result (session.parse_profiles examples.configured (session.ArgStr "ops "))
    = Ok (session.RetOne (Some "gcreds-ops")).
Proof.
  split_and!.
  - refine (proj1 (parse_profiles_by_input examples.configured) _ _ _).
    repeat constructor.
  - refine (proj1 (proj2 (parse_profiles_by_input examples.configured))
              _ ["dev" +:+ LF; LF; "  ops " +:+ LF] _ _ _ _);
      [done..|repeat constructor].
  - refine (proj2 (proj2 (parse_profiles_by_input examples.configured))
              _ _ _ _); done.
Defined.

Lemma non_blank_lines_all lines :
  Forall (λ line, blank line = false) lines → non_blank_lines lines = lines.
Proof.
  unfold non_blank_lines. induction 1 as [|line lines Hl _ IH]; [done|].
  rewrite filter_cons_True by done. by rewrite IH.
Qed.

(** A file with a blank line: it has two non-blank lines, and
    [parse_profiles] returns three elements, the blank line having been
    resolved like any other. *)
Lemma parse_profiles_blank_line_scenario :
  let lines := ["dev" +:+ LF; LF; "  ops " +:+ LF] in
  isfile examples.configured "profiles.txt" = true
  ∧ readlines examples.configured "profiles.txt" = Ok lines
  ∧ non_blank_lines lines = ["dev" +:+ LF; "  ops " +:+ LF]
  ∧ result (session.parse_profiles examples.configured
              (session.ArgStr "profiles.txt"))
    = Ok (session.RetList [Some "dev"; None; Some "gcreds-ops"]).
Proof. done. Qed.

(** C6, the claim as written fails on that file: three elements are
    returned for its two non-blank lines. *)
Lemma parse_profiles_counts_blank_lines :
  ¬ one_element_per_non_blank_line examples.configured "profiles.txt".
Proof.
  intros H.
  destruct (H ["dev" +:+ LF; LF; "  ops " +:+ LF] eq_refl eq_refl)
    as (l & Hl & Hlen).
  destruct parse_profiles_blank_line_scenario as (_ & _ & Hnb & Hres).
  rewrite Hres in Hl. injection Hl as <-. rewrite Hnb in Hlen. done.
Qed.

(** C6, amended: for a file of N lines, blank ones included,
    [parse_profiles] applied to its path returns a list of length exactly N
    whose i-th element is the value of [_profile_prefix] on the stripped
    i-th line, in file order; N is the number of non-blank lines when the
    file has no blank line. *)
Theorem parse_profiles_file_in_order w path lines :
  isfile w path = true → readlines w path = Ok lines →
  (∀ line, line ∈ lines → ∃ o, resolves w line o) →
  ∃ l,
    result (session.parse_profiles w (session.ArgStr path))
    = Ok (session.RetList l)
    ∧ List.length l = List.length lines
    ∧ (∀ i line, lines !! i = Some line →
         ∃ o, l !! i = Some o ∧ resolves w line o)
    ∧ (Forall (λ line, blank line = false) lines →
       List.length l = List.length (non_blank_lines lines)).
Proof.
  intros Hf Hl Hall. destruct (resolves_all w lines Hall) as [os Hos].
  exists os. split_and!.
  - by apply (parse_profiles_file w path lines).
  - symmetry. by eapply Forall2_length.
  - intros i line Hi.
    destruct (Forall2_lookup_l _ _ _ _ _ Hos Hi) as (o & ? & ?). by exists o.
  - intros Hnb. rewrite non_blank_lines_all by done.
    symmetry. by eapply Forall2_length.
Qed.

Lemma parse_profiles_file_in_order_witness :
  ∃ l,
    result (session.parse_profiles examples.configured
              (session.ArgStr "profiles.txt")) = Ok (session.RetList l)
    ∧ List.length l = 3%nat
    ∧ (∀ i line, ["dev" +:+ LF; LF; "  ops " +:+ LF] !! i = Some line →
         ∃ o, l !! i = Some o ∧ resolves examples.configured line o)
    ∧ (Forall (λ line, blank line = false) ["dev" +:+ LF; LF; "  ops " +:+ LF] →
       List.length l
       = List.length (non_blank_lines ["dev" +:+ LF; LF; "  ops " +:+ LF])).
Proof.
  refine (parse_profiles_file_in_order examples.configured "profiles.txt"
            ["dev" +:+ LF; LF; "  ops " +:+ LF] eq_refl eq_refl _).
  intros line Hin. apply list_elem_of_In in Hin. simpl in Hin.
  destruct Hin as [<-|[<-|[<-|[]]]]; eexists; reflexivity.
Defined.

(** ** The module-level default region *)




(** ** The image lookup *)

Lemma loop_body_result w fn values profile region amis metadata :
  result
    (py_try
       (images <- current_ami.region_images w values profile region;;
        image0 <- first images;;
        let metadata := <[region := image0]> metadata in
        let amis := <[region := ImageId image0]> amis in
        py_ret (amis, metadata))
       (current_ami.region_handlers fn amis metadata))
  = match result (current_ami.region_images w values profile region) with
    | Ok (image0 :: _) =>
        Ok (<[region := ImageId image0]> amis, <[region := image0]> metadata)
    | Ok [] => Raise IndexError
    | Raise (ClientError _ _) => Ok (amis, metadata)
    | Raise e => Raise e
    end.
Proof.
  rewrite result_try, result_bind.
  destruct (result (current_ami.region_images w values profile region))
    as [[|image0 rest]|e]; [done..|].
  by destruct e.
Qed.

Lemma amazonlinux1_loop_result w profile regions amis metadata :
  result (current_ami.amazonlinux1_loop w profile regions amis metadata)
  = collect (region_query w AmazonLinux1 profile) regions amis metadata.
Proof.
  revert amis metadata. induction regions as [|region regions IH];
    intros amis metadata; [done|].
  cbn [current_ami.amazonlinux1_loop collect].
  rewrite result_bind, loop_body_result. unfold region_query at 1. simpl values_of.
  destruct (result (current_ami.region_images w _ profile region))
    as [[|image0 rest]|e]; [done|apply IH|].
  destruct e; first [apply IH|done].
Qed.

Lemma or_default_idemp profile : or_default (or_default profile) = or_default profile.
Proof.
  unfold or_default. destruct (truthy_opt profile) eqn:H; simpl; [|done].
  by rewrite H.
Qed.

Lemma boto3_session_or_default w service region profile :
  session.boto3_session w service region (or_default profile)
  = session.boto3_session w service region profile.
Proof.
  unfold or_default. destruct (truthy_opt profile) eqn:H; simpl; [done|].
  rewrite !boto3_session_ambient; [done|by left|by right].
Qed.

Lemma region_images_or_default w values profile region :
  current_ami.region_images w values (or_default profile) region
  = current_ami.region_images w values profile region.
Proof.
  unfold current_ami.region_images. by rewrite boto3_session_or_default.
Qed.

Lemma region_query_or_default w f profile region :
  region_query w f (or_default profile) region = region_query w f profile region.
Proof. unfold region_query. by rewrite region_images_or_default. Qed.

Lemma collect_ext fetch1 fetch2 regions amis metadata :
  (∀ region, fetch1 region = fetch2 region) →
  collect fetch1 regions amis metadata = collect fetch2 regions amis metadata.
Proof.
  intros Heq. revert amis metadata.
  induction regions as [|region regions IH]; intros amis metadata; [done|].
  simpl. rewrite Heq.
  destruct (fetch2 region) as [[|image0 rest]|e]; [done|apply IH|].
  destruct e; first [apply IH|done].
Qed.

Lemma amazonlinux2_loop_result w profile regions amis metadata :
  result (current_ami.amazonlinux2_loop w profile regions amis metadata)
  = collect (region_query w AmazonLinux2 profile) regions amis metadata.
Proof.
  revert profile amis metadata. induction regions as [|region regions IH];
    intros profile amis metadata; [done|].
  cbn [current_ami.amazonlinux2_loop collect]. fold (or_default profile).
  cbv zeta.
  rewrite result_bind, loop_body_result, region_images_or_default.
  unfold region_query at 1. simpl values_of.
  assert (Hq : ∀ a m, collect (region_query w AmazonLinux2 (or_default profile))
                        regions a m
                      = collect (region_query w AmazonLinux2 profile) regions a m).
  { intros a m. apply collect_ext. intros r. apply region_query_or_default. }
  destruct (result (current_ami.region_images w _ profile region))
    as [[|image0 rest]|e]; [done|by rewrite IH, Hq|].
  destruct e; first [by rewrite IH, Hq|done].
Qed.

Lemma findLatestImage_result w default_region f profile region detailed debug :
  result (findLatestImage w default_region f profile region detailed debug)
  = match result (current_ami.target_regions w default_region profile region) with
    | Raise e => Raise e
    | Ok regions =>
        match collect (region_query w f profile) regions ∅ ∅ with
        | Raise e => Raise e
        | Ok dicts =>
            Ok (if detailed then current_ami.Metadata dicts.2
                else current_ami.Amis dicts.1)
        end
    end.
Proof.
  destruct f; simpl;
    unfold current_ami.amazonlinux1, current_ami.amazonlinux2;
    rewrite result_bind;
    (destruct (result (current_ami.target_regions w default_region profile region))
       as [regions|e]; [|done]);
    rewrite result_bind, ?amazonlinux1_loop_result, ?amazonlinux2_loop_result;
    (destruct (collect _ regions ∅ ∅) as [dicts|e]; [|done]);
    by destruct detailed.
Qed.

Lemma collect_lookup fetch regions amis metadata amis' metadata' :
  collect fetch regions amis metadata = Ok (amis', metadata') →
  ∀ k,
    amis' !! k = match found fetch regions k with
                 | Some image => Some (ImageId image)
                 | None => amis !! k
                 end
    ∧ metadata' !! k = match found fetch regions k with
                       | Some image => Some image
                       | None => metadata !! k
                       end.
Proof.
  revert amis metadata.
  induction regions as [|region regions IH]; intros amis metadata H k.
  - injection H as <- <-. done.
  - simpl in H. unfold found in *.
    destruct (fetch region) as [[|image0 rest]|e] eqn:Hq; [done| |].
    + destruct (IH _ _ H k) as [Ha Hm]. rewrite Ha, Hm. clear Ha Hm IH H.
      destruct (decide (k = region)) as [->|Hne].
      * rewrite (decide_True (P := region ∈ region :: regions)) by by left.
        rewrite Hq, !lookup_insert_eq. by destruct (decide (region ∈ regions)).
      * rewrite !lookup_insert_ne by done.
        destruct (decide (k ∈ regions)) as [Hin|Hnin].
        -- rewrite (decide_True (P := k ∈ region :: regions)) by by right. done.
        -- rewrite (decide_False (P := k ∈ region :: regions)); [done|].
           by intros [?|?]%elem_of_cons.
    + assert (collect fetch regions amis metadata = Ok (amis', metadata')) as H'
        by by destruct e.
      destruct (IH _ _ H' k) as [Ha Hm]. rewrite Ha, Hm. clear Ha Hm IH H H'.
      destruct (decide (k = region)) as [->|Hne].
      * rewrite (decide_True (P := region ∈ region :: regions)) by by left.
        rewrite Hq. by destruct (decide (region ∈ regions)).
      * destruct (decide (k ∈ regions)) as [Hin|Hnin].
        -- rewrite (decide_True (P := k ∈ region :: regions)) by by right. done.
        -- rewrite (decide_False (P := k ∈ region :: regions)); [done|].
           by intros [?|?]%elem_of_cons.
Qed.

Lemma collect_returns fetch regions amis metadata :
  Forall (λ r, tolerated (fetch r)) regions →
  ∃ dicts, collect fetch regions amis metadata = Ok dicts.
Proof.
  intros H. revert amis metadata.
  induction H as [|region regions Hr _ IH]; intros amis metadata; simpl.
  - by eexists.
  - destruct Hr as [(code & message & ->)|(image & rest & ->)]; apply IH.
Qed.

Lemma collect_returned fetch regions amis metadata dicts :
  collect fetch regions amis metadata = Ok dicts →
  Forall (λ r, tolerated (fetch r)) regions.
Proof.
  revert amis metadata.
  induction regions as [|region regions IH]; intros amis metadata H; [done|].
  simpl in H. destruct (fetch region) as [[|image0 rest]|e] eqn:Hq; [done| |].
  - constructor; [right; by do 2 eexists|by eapply IH].
  - destruct e; try done. constructor; [left; by do 2 eexists|by eapply IH].
Qed.

Lemma collect_empty_raises fetch pre region post amis metadata :
  Forall (λ r, tolerated (fetch r)) pre → fetch region = Ok [] →
  collect fetch (pre ++ region :: post) amis metadata = Raise IndexError.
Proof.
  intros H Hq. revert amis metadata.
  induction H as [|r pre Hr _ IH]; intros amis metadata; simpl.
  - by rewrite Hq.
  - destruct Hr as [(code & message & ->)|(image & rest & ->)]; apply IH.
Qed.

Lemma found_Some fetch regions k image :
  found fetch regions k = Some image ↔
  k ∈ regions ∧ ∃ rest, fetch k = Ok (image :: rest).
Proof.
  unfold found. destruct (decide (k ∈ regions)) as [Hin|Hnin].
  - destruct (fetch k) as [[|image0 rest]|e]; split;
      try done; try by intros (_ & ? & ?).
    + intros [= ->]. split; [done|by eexists].
    + by intros (_ & ? & [= -> _]).
  - split; [done|]. by intros [? _].
Qed.

Lemma keys_found fetch regions amis' metadata' (detailed : bool) :
  collect fetch regions ∅ ∅ = Ok (amis', metadata') →
  ∀ k,
    k ∈ current_ami.keys (if detailed then current_ami.Metadata metadata'
                          else current_ami.Amis amis')
    ↔ is_Some (found fetch regions k).
Proof.
  intros H k. destruct (collect_lookup _ _ _ _ _ _ H k) as [Ha Hm].
  rewrite lookup_empty in Ha. rewrite lookup_empty in Hm.
  destruct detailed; simpl; rewrite elem_of_dom.
  - rewrite Hm. by destruct (found fetch regions k).
  - rewrite Ha. destruct (found fetch regions k); [|done].
    split; intros _; by eexists.
Qed.

(** The scenario of the specification: [region-a] has images, [region-b]
    has none, [region-c] raises a client error.  Indexing the empty list of
    [region-b] raises [IndexError], which the generic clause logs and
    re-raises, in both lookup functions. *)
Lemma lookup_scenario_raises :
  let w := examples.provider ["region-a"; "region-b"; "region-c"] in
  region_query w AmazonLinux1 None "region-a"
  = Ok [examples.image_a; examples.image_a_old]
  ∧ region_query w AmazonLinux1 None "region-b" = Ok []
  ∧ client_error (region_query w AmazonLinux1 None "region-c")
  ∧ result (findLatestImage w "us-east-1" AmazonLinux1 None None false false)
    = Raise IndexError
  ∧ result (findLatestImage w "us-east-1" AmazonLinux2 None None false false)
    = Raise IndexError.
Proof.
  split_and!; try done. by do 2 eexists.
Qed.

(** C1, the claim as written fails: in the scenario above the call does not
    return. *)
Lemma lookup_does_not_skip_empty_regions :
  ¬ skips_empty_regions (examples.provider ["region-a"; "region-b"; "region-c"])
      "us-east-1" AmazonLinux1 None None false false.
Proof.
  intros H.
  destruct (H ["region-a"; "region-b"; "region-c"]) as (res & Hres & _).
  - done.
  - repeat apply Forall_cons_2; [..|apply Forall_nil_2].
    + right. by eexists.
    + right. by eexists.
    + left. by do 2 eexists.
  - destruct lookup_scenario_raises as (_ & _ & _ & Hraise & _).
    rewrite Hraise in Hres. done.
Qed.

Lemma loop_body_logs_raise w fn values profile region amis metadata e :
  result
    (images <- current_ami.region_images w values profile region;;
     image0 <- first images;;
     let metadata := <[region := image0]> metadata in
     let amis := <[region := ImageId image0]> amis in
     py_ret (amis, metadata)) = Raise e →
  logged fn e
  ∈ output
      (py_try
         (images <- current_ami.region_images w values profile region;;
          image0 <- first images;;
          let metadata := <[region := image0]> metadata in
          let amis := <[region := ImageId image0]> amis in
          py_ret (amis, metadata))
         (current_ami.region_handlers fn amis metadata)).
Proof.
  intros Hb. rewrite output_try, Hb. apply elem_of_app. right.
  destruct e; by left.
Qed.

Lemma amazonlinux1_loop_logs_empty w profile pre r post amis metadata :
  Forall (λ r, tolerated (region_query w AmazonLinux1 profile r)) pre →
  region_query w AmazonLinux1 profile r = Ok [] →
  logged "amazonlinux1" IndexError
  ∈ output (current_ami.amazonlinux1_loop w profile (pre ++ r :: post)
              amis metadata).
Proof.
  unfold region_query. simpl values_of. intros Hpre Hq. revert amis metadata.
  induction Hpre as [|y pre Hy _ IH]; intros amis metadata.
  - cbn [app current_ami.amazonlinux1_loop]. rewrite output_bind.
    apply elem_of_app. left. apply loop_body_logs_raise.
    by rewrite result_bind, Hq.
  - cbn [app current_ami.amazonlinux1_loop]. rewrite output_bind.
    apply elem_of_app. right. rewrite loop_body_result.
    destruct Hy as [(code & message & ->)|(image & rest & ->)]; apply IH.
Qed.

Lemma amazonlinux2_loop_logs_empty w profile pre r post amis metadata :
  Forall (λ r, tolerated (region_query w AmazonLinux2 profile r)) pre →
  region_query w AmazonLinux2 profile r = Ok [] →
  logged "amazonlinux2" IndexError
  ∈ output (current_ami.amazonlinux2_loop w profile (pre ++ r :: post)
              amis metadata).
Proof.
  intros Hpre Hq. revert profile amis metadata Hpre Hq.
  induction pre as [|y pre IH]; intros profile amis metadata Hpre Hq.
  - cbn [app current_ami.amazonlinux2_loop]. fold (or_default profile).
    cbv zeta. rewrite output_bind.
    apply elem_of_app. left. apply loop_body_logs_raise.
    rewrite result_bind, region_images_or_default.
    unfold region_query in Hq. simpl values_of in Hq. by rewrite Hq.
  - apply Forall_cons in Hpre as [Hy Hpre].
    cbn [app current_ami.amazonlinux2_loop]. fold (or_default profile).
    cbv zeta. rewrite output_bind.
    apply elem_of_app. right.
    rewrite loop_body_result, region_images_or_default.
    unfold tolerated, client_error, has_image, region_query in Hy.
    simpl values_of in Hy.
    assert (Hpre' : Forall (λ r, tolerated
                              (region_query w AmazonLinux2 (or_default profile) r))
                      pre).
    { eapply Forall_impl; [done|]. intros x Hx.
      by rewrite region_query_or_default. }
    assert (Hq' : region_query w AmazonLinux2 (or_default profile) r = Ok [])
      by by rewrite region_query_or_default.
    destruct Hy as [(code & message & ->)|(image & rest & ->)]; by apply IH.
Qed.

(** C1, amended: over target regions each of which either raises a client
    error or answers with at least one image, the lookup returns normally,
    and the keys of the returned mapping are exactly the regions that
    answered with at least one image, the erroring regions being absent; a
    region that answers with an empty list of images is not skipped: when
    the loop reaches it, the generic [except] clause logs the [IndexError]
    under the name of the lookup function and re-raises it to the caller. *)
Theorem lookup_skips_client_errors w default_region f profile region
    (detailed debug : bool) regions :
  result (current_ami.target_regions w default_region profile region)
  = Ok regions →
  (Forall (λ r, tolerated (region_query w f profile r)) regions →
   ∃ res,
     result (findLatestImage w default_region f profile region detailed debug)
     = Ok res
     ∧ ∀ r, r ∈ current_ami.keys res
            ↔ r ∈ regions ∧ has_image (region_query w f profile r))
  ∧ (∀ pre r post,
       regions = pre ++ r :: post →
       Forall (λ r, tolerated (region_query w f profile r)) pre →
       region_query w f profile r = Ok [] →
       result (findLatestImage w default_region f profile region detailed debug)
       = Raise IndexError
       ∧ logged (function_name f) IndexError
         ∈ output (findLatestImage w default_region f profile region
                     detailed debug)).
Proof.
  intros Ht. split; [rewrite findLatestImage_result, Ht|].
  - intros Hall.
    destruct (collect_returns _ _ ∅ ∅ Hall) as [[amis' metadata'] Hc].
    rewrite Hc. eexists. split; [done|]. intros r. simpl.
    rewrite (keys_found _ _ _ _ detailed Hc r). unfold is_Some, has_image.
    setoid_rewrite found_Some. split.
    + intros (image & ? & rest & ?). split; [done|by exists image, rest].
    + intros (? & image & rest & ?). exists image. split; [done|by exists rest].
  - intros pre r post -> Hpre Hq. split.
    + rewrite findLatestImage_result, Ht.
      by rewrite (collect_empty_raises _ pre r post ∅ ∅ Hpre Hq).
    + destruct f; simpl;
        unfold current_ami.amazonlinux1, current_ami.amazonlinux2;
        rewrite output_bind, Ht, output_bind;
        apply elem_of_app; right; apply elem_of_app; left.
      * by apply amazonlinux1_loop_logs_empty.
      * by apply amazonlinux2_loop_logs_empty.
Qed.

Lemma lookup_skips_client_errors_witness :
  (∃ res,
     result (findLatestImage (examples.provider ["region-a"; "region-c"])
               "us-east-1" AmazonLinux2 None None false false) = Ok res
     ∧ ∀ r, r ∈ current_ami.keys res
            ↔ r ∈ ["region-a"; "region-c"]
              ∧ has_image (region_query (examples.provider ["region-a"; "region-c"])
                             AmazonLinux2 None r))
  ∧ (result (findLatestImage (examples.provider ["region-c"; "region-b"; "region-a"])
               "us-east-1" AmazonLinux1 None None true false) = Raise IndexError
     ∧ logged "amazonlinux1" IndexError
       ∈ output (findLatestImage
                   (examples.provider ["region-c"; "region-b"; "region-a"])
                   "us-east-1" AmazonLinux1 None None true false)).
Proof.
  split.
  - refine (proj1 (lookup_skips_client_errors
                     (examples.provider ["region-a"; "region-c"]) "us-east-1"
                     AmazonLinux2 None None false false
                     ["region-a"; "region-c"] eq_refl) _).
    repeat apply Forall_cons_2; [..|apply Forall_nil_2].
    + right. by do 2 eexists.
    + left. by do 2 eexists.
  - refine (proj2 (lookup_skips_client_errors
                     (examples.provider ["region-c"; "region-b"; "region-a"])
                     "us-east-1" AmazonLinux1 None None true false
                     ["region-c"; "region-b"; "region-a"] eq_refl)
              ["region-c"] "region-b" ["region-a"] eq_refl _ eq_refl).
    repeat apply Forall_cons_2; [|apply Forall_nil_2]. left. by do 2 eexists.
Defined.

(** Two target regions: [region-a] answers with images, [region-b] with
    none.  The lookup raises [IndexError], so [region-a] is mapped to
    nothing. *)
Lemma lookup_two_regions_raises :
  let w := examples.provider ["region-a"; "region-b"] in
  result (current_ami.target_regions w "us-east-1" None None)
  = Ok ["region-a"; "region-b"]
  ∧ region_query w AmazonLinux1 None "region-a"
    = Ok [examples.image_a; examples.image_a_old]
  ∧ region_query w AmazonLinux1 None "region-b" = Ok []
  ∧ result (findLatestImage w "us-east-1" AmazonLinux1 None None false false)
    = Raise IndexError.
Proof. done. Qed.

(** C8, the claim as written fails: a region that answered with images is
    not mapped to its first image when another target region answers with
    an empty list, because the lookup then returns no mapping at all. *)
Lemma lookup_maps_nothing_after_empty_region :
  ¬ maps_every_answering_region (examples.provider ["region-a"; "region-b"])
      "us-east-1" AmazonLinux1 None None false false.
Proof.
  intros H.
  destruct lookup_two_regions_raises as (Ht & Ha & _ & Hraise).
  destruct (H ["region-a"; "region-b"] "region-a" examples.image_a
              [examples.image_a_old] Ht) as (res & Hres & _);
    [by left|exact Ha|].
  rewrite Hraise in Hres. done.
Qed.

(** C8, amended: a target region whose image query succeeds with a
    non-empty list is mapped, in every mapping the lookup returns, to the
    first image of that list: to its full record when [detailed] is set, to
    its identifier otherwise; and the lookup does return such a mapping
    whenever each target region raises a client error or answers with at
    least one image. *)
Theorem lookup_takes_first_image w default_region f profile region
    (detailed debug : bool) regions r image rest :
  result (current_ami.target_regions w default_region profile region)
  = Ok regions →
  r ∈ regions →
  region_query w f profile r = Ok (image :: rest) →
  (∀ res,
     result (findLatestImage w default_region f profile region detailed debug)
     = Ok res →
     current_ami.at_region res r
     = Some (if detailed then current_ami.EntryRecord image
             else current_ami.EntryId (ImageId image)))
  ∧ (Forall (λ r, tolerated (region_query w f profile r)) regions →
     ∃ res,
       result (findLatestImage w default_region f profile region detailed debug)
       = Ok res
       ∧ current_ami.at_region res r
         = Some (if detailed then current_ami.EntryRecord image
                 else current_ami.EntryId (ImageId image))).
Proof.
  intros Ht Hin Hq. rewrite findLatestImage_result, Ht.
  assert (Hfound : found (region_query w f profile) regions r = Some image).
  { apply found_Some. split; [done|by eexists]. }
  assert (Hmap : ∀ dicts,
    collect (region_query w f profile) regions ∅ ∅ = Ok dicts →
    current_ami.at_region
      (if detailed then current_ami.Metadata dicts.2
       else current_ami.Amis dicts.1) r
    = Some (if detailed then current_ami.EntryRecord image
            else current_ami.EntryId (ImageId image))).
  { intros [amis' metadata'] Hc.
    destruct (collect_lookup _ _ _ _ _ _ Hc r) as [Ha Hm].
    rewrite Hfound in Ha, Hm.
    destruct detailed; simpl; by rewrite ?Ha, ?Hm. }
  split.
  - intros res Hres.
    destruct (collect _ regions ∅ ∅) as [dicts|e]; [|done].
    injection Hres as <-. by apply Hmap.
  - intros Hall. destruct (collect_returns _ _ ∅ ∅ Hall) as [dicts Hc].
    rewrite Hc. eexists. split; [done|]. by apply Hmap.
Qed.

Lemma lookup_takes_first_image_witness :
  (∃ res,
     result (findLatestImage (examples.provider ["region-c"; "region-a"])
               "us-east-1" AmazonLinux1 None None true false) = Ok res
     ∧ current_ami.at_region res "region-a"
       = Some (current_ami.EntryRecord examples.image_a))
  ∧ (∃ res,
       result (findLatestImage (examples.provider [])
                 "us-east-1" AmazonLinux2 (Some "default") (Some "region-a")
                 false false) = Ok res
       ∧ current_ami.at_region res "region-a" = Some (current_ami.EntryId "ami-0a")).
Proof.
  split.
  - refine (proj2 (lookup_takes_first_image
                     (examples.provider ["region-c"; "region-a"]) "us-east-1"
                     AmazonLinux1 None None true false ["region-c"; "region-a"]
                     "region-a" examples.image_a [examples.image_a_old]
                     eq_refl _ eq_refl) _).
    + set_solver.
    + repeat apply Forall_cons_2; [..|apply Forall_nil_2].
      * left. by do 2 eexists.
      * right. by do 2 eexists.
  - refine (proj2 (lookup_takes_first_image
                     (examples.provider []) "us-east-1"
                     AmazonLinux2 (Some "default") (Some "region-a") false false
                     ["region-a"]
                     "region-a" examples.image_a [examples.image_a_old]
                     eq_refl _ eq_refl) _).
    + set_solver.
    + repeat apply Forall_cons_2; [|apply Forall_nil_2]. right. by do 2 eexists.
Defined.

(** C9: every key of a mapping returned by the lookup is one of the target
    regions of that run: the single requested region when one is given,
    the regions returned by [get_regions] otherwise. *)
Theorem lookup_keys_were_queried w default_region f profile region
    (detailed debug : bool) res :
  result (findLatestImage w default_region f profile region detailed debug)
  = Ok res →
  ∃ regions,
    result (current_ami.target_regions w default_region profile region)
    = Ok regions
    ∧ (∀ name, region = Some name → name ≠ EmptyString → regions = [name])
    ∧ (truthy_opt region = false →
       result (current_ami.get_regions w default_region profile) = Ok regions)
    ∧ ∀ k, k ∈ current_ami.keys res → k ∈ regions.
Proof.
  rewrite findLatestImage_result.
  destruct (result (current_ami.target_regions w default_region profile region))
    as [regions|e] eqn:Ht; [|done].
  destruct (collect _ regions ∅ ∅) as [[amis' metadata']|e] eqn:Hc; [|done].
  intros [= <-]. exists regions. split_and!; [done| | |].
  - intros name -> Hname. unfold current_ami.target_regions in Ht. simpl in Ht.
    rewrite (proj2 (truthy_true name) Hname) in Ht. by injection Ht as <-.
  - intros Hfalsy. unfold current_ami.target_regions in Ht.
    by rewrite Hfalsy in Ht.
  - intros k Hk. simpl in Hk.
    apply (keys_found _ _ _ _ detailed Hc k) in Hk as [image Hk].
    by apply found_Some in Hk as [? _].
Qed.

Lemma lookup_keys_were_queried_witness :
  ∃ regions,
    result (current_ami.target_regions (examples.provider ["region-a"; "region-c"])
              "us-east-1" None None) = Ok regions
    ∧ (∀ name, None = Some name → name ≠ EmptyString → regions = [name])
    ∧ (truthy_opt None = false →
       result (current_ami.get_regions (examples.provider ["region-a"; "region-c"])
                 "us-east-1" None) = Ok regions)
    ∧ ∀ k, k ∈ current_ami.keys (current_ami.Amis {[ "region-a" := "ami-0a" ]}) →
           k ∈ regions.
Proof.
  refine (lookup_keys_were_queried (examples.provider ["region-a"; "region-c"])
            "us-east-1" AmazonLinux1 None None false false
            (current_ami.Amis {[ "region-a" := "ami-0a" ]}) _).
  reflexivity.
Defined.

(** * Further properties *)

(** ** More on [_profile_prefix] *)

Lemma _profile_prefix_Some w P prefix Q :
  result (session._profile_prefix w P prefix) = Ok (Some Q) →
  (Q = P ∨ Q = prefix +:+ "-" +:+ P)
  ∧ ∃ k, stored_key w Q = Ok k ∧ k ≠ EmptyString.
Proof.
  rewrite _profile_prefix_result.
  destruct (stored_key w P) as [k|e] eqn:H1; [|done].
  destruct (truthy k) eqn:Hk.
  - intros [= <-]. split; [by left|]. exists k. by rewrite <- truthy_true.
  - destruct (stored_key w (prefix +:+ "-" +:+ P)) as [k'|e] eqn:H2; [|done].
    destruct (truthy k') eqn:Hk'; [|done].
    intros [= <-]. split; [by right|]. exists k'. by rewrite <- truthy_true.
Qed.

(** X1: for any prefix, a name returned by [_profile_prefix] is the
    requested name or the prefixed name, and the configuration stores a
    non-empty access key under it. *)
Theorem _profile_prefix_returns_stored_name w P prefix Q :
  result (session._profile_prefix w P prefix) = Ok (Some Q) →
  (Q = P ∨ Q = prefix +:+ "-" +:+ P)
  ∧ ∃ k, stored_key w Q = Ok k ∧ k ≠ EmptyString.
Proof. apply _profile_prefix_Some. Qed.

Lemma _profile_prefix_returns_stored_name_witness :
  ("gcreds-ops" = "ops" ∨ "gcreds-ops" = "gcreds" +:+ "-" +:+ "ops")
  ∧ ∃ k, stored_key examples.configured "gcreds-ops" = Ok k ∧ k ≠ EmptyString.
Proof.
  exact (_profile_prefix_returns_stored_name examples.configured "ops" "gcreds"
           "gcreds-ops" eq_refl).
Defined.

(** X2: a name returned by [_profile_prefix] is a fixed point: resolving
    it again, with the same prefix and configuration, returns it unchanged
    (it is never prefixed a second time). *)
Theorem _profile_prefix_fixed_point w P prefix Q :
  result (session._profile_prefix w P prefix) = Ok (Some Q) →
  result (session._profile_prefix w Q prefix) = Ok (Some Q).
Proof.
  intros H. apply _profile_prefix_Some in H as (_ & k & Hk & Hne).
  rewrite _profile_prefix_result, Hk. by rewrite (proj2 (truthy_true k) Hne).
Qed.

Lemma _profile_prefix_fixed_point_witness :
  result (session._profile_prefix examples.configured "gcreds-ops" "gcreds")
  = Ok (Some "gcreds-ops").
Proof.
  exact (_profile_prefix_fixed_point examples.configured "ops" "gcreds"
           "gcreds-ops" eq_refl).
Defined.

Lemma _profile_prefix_output w P prefix :
  output (session._profile_prefix w P prefix) =
  match result (session._profile_prefix w P prefix) with
  | Ok _ => []
  | Raise e => [logged "_profile_prefix" e]
  end.
Proof.
  unfold session._profile_prefix.
  rewrite output_try, result_try, output_bind, result_bind, result_lift.
  change (output (py_lift ?r)) with (@nil event).
  destruct (getoutput w (session.access_key_command P)) as [k|e]; [|done].
  destruct (truthy k); [done|].
  rewrite output_bind, result_bind, result_lift.
  destruct (getoutput w _) as [k'|e]; [|done].
  by destruct (truthy k').
Qed.

(** X3: [_profile_prefix] raises exactly when one of the commands it runs
    raises: the first one, or the second one after the first printed
    nothing.  The exception is re-raised unchanged after one call of
    [logger.exception]; a call that returns logs nothing. *)
Theorem _profile_prefix_failure w P prefix :
  (∀ e, result (session._profile_prefix w P prefix) = Raise e
        ↔ stored_key w P = Raise e
          ∨ stored_key w P = Ok EmptyString
            ∧ stored_key w (prefix +:+ "-" +:+ P) = Raise e)
  ∧ (∀ e, result (session._profile_prefix w P prefix) = Raise e →
          output (session._profile_prefix w P prefix)
          = [logged "_profile_prefix" e])
  ∧ (∀ o, result (session._profile_prefix w P prefix) = Ok o →
          output (session._profile_prefix w P prefix) = []).
Proof.
  split_and!.
  - intros e. rewrite _profile_prefix_result.
    destruct (stored_key w P) as [k|e1].
    + destruct (truthy k) eqn:Hk.
      * split; [done|]. intros [H|[H _]]; [done|].
        injection H as ->. done.
      * apply truthy_false in Hk as ->.
        destruct (stored_key w (prefix +:+ "-" +:+ P)) as [k'|e2].
        -- destruct (truthy k'); (split; [done|]); intros [H|[_ H]]; done.
        -- split; [intros H; injection H as ->; by right|].
           intros [H|[_ H]]; [done|]. by injection H as ->.
    + split; [intros H; injection H as ->; by left|].
      intros [H|[H _]]; [|done]. by injection H as ->.
  - intros e H. by rewrite _profile_prefix_output, H.
  - intros o H. by rewrite _profile_prefix_output, H.
Qed.

Lemma _profile_prefix_failure_witness :
  output (session._profile_prefix examples.no_shell "dev" "gcreds")
  = [logged "_profile_prefix" (OtherError "OSError")]
  ∧ output (session._profile_prefix examples.configured "ops" "gcreds") = [].
Proof.
  split.
  - exact (proj1 (proj2 (_profile_prefix_failure examples.no_shell "dev" "gcreds"))
             (OtherError "OSError") eq_refl).
  - exact (proj2 (proj2 (_profile_prefix_failure examples.configured "ops" "gcreds"))
             (Some "gcreds-ops") eq_refl).
Defined.

(** ** More on [parse_profiles] *)

Lemma prefix_each_output_ok w xs os acc :
  Forall2 (resolves w) xs os → output (session.prefix_each w xs acc) = [].
Proof.
  intros H. revert acc. induction H as [|x o xs os Hx _ IH]; intros acc; [done|].
  simpl. rewrite output_bind, _profile_prefix_output, Hx. simpl. apply IH.
Qed.

Lemma prefix_each_raises w pre x post os e acc :
  Forall2 (resolves w) pre os →
  result (session._profile_prefix w (strip x) session.prefix_default) = Raise e →
  session.prefix_each w (pre ++ x :: post) acc
  = ([logged "_profile_prefix" e], Raise e).
Proof.
  intros H Hx. revert acc.
  induction H as [|y o pre os Hy _ IH]; intros acc; simpl.
  - apply py_eq.
    + by rewrite output_bind, _profile_prefix_output, Hx.
    + by rewrite result_bind, Hx.
  - apply py_eq.
    + rewrite output_bind, _profile_prefix_output, Hy, IH. done.
    + rewrite result_bind, Hy, IH. done.
Qed.

(** X4: a failure inside [parse_profiles] is re-raised unchanged and the
    names resolved before it are lost.  When the list, or the file, reaches
    a name on which [_profile_prefix] raises, after names that all resolved,
    the exception is logged twice, by [_profile_prefix] and then by
    [parse_profiles]; when the file that [os.path.isfile] accepted cannot be
    read, the exception is logged once. *)
Theorem parse_profiles_failure w :
  (∀ pre x post os e,
     Forall2 (resolves w) pre os →
     result (session._profile_prefix w (strip x) session.prefix_default)
     = Raise e →
     session.parse_profiles w (session.ArgList (pre ++ x :: post))
     = ([logged "_profile_prefix" e; logged "parse_profiles" e], Raise e)
     ∧ (∀ path,
          isfile w path = true → readlines w path = Ok (pre ++ x :: post) →
          session.parse_profiles w (session.ArgStr path)
          = ([logged "_profile_prefix" e; logged "parse_profiles" e], Raise e)))
  ∧ (∀ path e',
       isfile w path = true → readlines w path = Raise e' →
       session.parse_profiles w (session.ArgStr path)
       = ([logged "parse_profiles" e'], Raise e')).
Proof.
  split.
  - intros pre x post os e Hpre Hx. split.
    + unfold session.parse_profiles.
      by rewrite (prefix_each_raises w pre x post os e [] Hpre Hx).
    + intros path Hf Hl. unfold session.parse_profiles. rewrite Hf, Hl. simpl.
      by rewrite (prefix_each_raises w pre x post os e [] Hpre Hx).
  - intros path e' Hf Hl. unfold session.parse_profiles. by rewrite Hf, Hl.
Qed.

Lemma parse_profiles_failure_witness :
  session.parse_profiles examples.no_shell (session.ArgList ["dev"; "ops"])
  = ([logged "_profile_prefix" (OtherError "OSError");
      logged "parse_profiles" (OtherError "OSError")],
     Raise (OtherError "OSError"))
  ∧ session.parse_profiles examples.locked_file (session.ArgStr "profiles.txt")
    = ([logged "parse_profiles" (OtherError "PermissionError")],
       Raise (OtherError "PermissionError")).
Proof.
  split.
  - exact (proj1 (proj1 (parse_profiles_failure examples.no_shell)
                    [] "dev" ["ops"] [] (OtherError "OSError")
                    (List.Forall2_nil _) eq_refl)).
  - exact (proj2 (parse_profiles_failure examples.locked_file)
             "profiles.txt" (OtherError "PermissionError") eq_refl eq_refl).
Defined.

(** *** [strip] *)

Lemma app_cons (c : ascii) (s t : string) :
  String c s +:+ t = String c (s +:+ t).
Proof. done. Qed.

Lemma app_empty_r (s : string) : s +:+ EmptyString = s.
Proof. induction s as [|c s IH]; [done|]. by rewrite app_cons, IH. Qed.

Lemma app_assoc_string (s t u : string) : (s +:+ t) +:+ u = s +:+ (t +:+ u).
Proof. induction s as [|c s IH]; [done|]. by rewrite !app_cons, IH. Qed.

Lemma rev_app_spec (s t : string) : String.rev_app s t = String.rev s +:+ t.
Proof.
  unfold String.rev. revert t. induction s as [|c s IH]; intros t; [done|].
  cbn [String.rev_app].
  rewrite (IH (String c t)), (IH (String c EmptyString)).
  by rewrite app_assoc_string.
Qed.

Lemma rev_cons (c : ascii) (s : string) :
  String.rev (String c s) = String.rev s +:+ String c EmptyString.
Proof. unfold String.rev at 1. cbn [String.rev_app]. apply rev_app_spec. Qed.

Lemma rev_append (s t : string) :
  String.rev (s +:+ t) = String.rev t +:+ String.rev s.
Proof.
  induction s as [|c s IH].
  - change (String.rev EmptyString) with EmptyString. by rewrite app_empty_r.
  - by rewrite app_cons, !rev_cons, IH, app_assoc_string.
Qed.

Lemma rev_involutive (s : string) : String.rev (String.rev s) = s.
Proof.
  induction s as [|c s IH]; [done|].
  by rewrite rev_cons, rev_append, IH.
Qed.

Lemma lstrip_clean (s : string) : clean_head (lstrip s).
Proof.
  induction s as [|c s IH]; simpl; [done|].
  destruct (is_space c) eqn:Hc; [done|]. simpl. done.
Qed.

Lemma lstrip_of_clean (s : string) : clean_head s → lstrip s = s.
Proof. destruct s as [|c s]; simpl; [done|]. by intros ->. Qed.

Lemma lstrip_suffix (s : string) : ∃ ws, s = ws +:+ lstrip s.
Proof.
  induction s as [|c s [ws IH]]; [by exists EmptyString|]. simpl.
  destruct (is_space c).
  - exists (String c ws). by rewrite app_cons, <- IH.
  - by exists EmptyString.
Qed.

Lemma clean_head_prefix (s t : string) : clean_head (s +:+ t) → clean_head s.
Proof. destruct s; [done|exact id]. Qed.

Lemma rstrip_clean (s : string) : clean_head s → clean_head (rstrip s).
Proof.
  intros Hs. unfold rstrip.
  destruct (lstrip_suffix (String.rev s)) as [ws Hws].
  apply (f_equal String.rev) in Hws.
  rewrite rev_involutive, rev_append in Hws.
  rewrite Hws in Hs. by apply clean_head_prefix in Hs.
Qed.

Lemma strip_idemp (s : string) : strip (strip s) = strip s.
Proof.
  unfold strip.
  rewrite (lstrip_of_clean (rstrip (lstrip s)))
    by (apply rstrip_clean, lstrip_clean).
  unfold rstrip. rewrite rev_involutive.
  by rewrite (lstrip_of_clean (lstrip _)) by apply lstrip_clean.
Qed.

Lemma py_bind_ext {A B} (m : Py A) (k1 k2 : A → Py B) :
  (∀ a, k1 a = k2 a) → py_bind m k1 = py_bind m k2.
Proof. intros H. destruct m as [l [a|e]]; simpl; [by rewrite H|done]. Qed.

Lemma prefix_each_strip w xs acc :
  session.prefix_each w (strip <$> xs) acc = session.prefix_each w xs acc.
Proof.
  revert acc. induction xs as [|x xs IH]; intros acc; [done|].
  simpl. rewrite strip_idemp. apply py_bind_ext. intros p. apply IH.
Qed.

(** X5: [strip] is idempotent, so the white space around the names of a
    list is irrelevant to [parse_profiles]: a list and the list of its
    stripped names give the same result and the same log output. *)
Theorem parse_profiles_ignores_padding w names :
  (∀ name, strip (strip name) = strip name)
  ∧ session.parse_profiles w (session.ArgList (strip <$> names))
    = session.parse_profiles w (session.ArgList names).
Proof.
  split; [apply strip_idemp|].
  unfold session.parse_profiles. by rewrite prefix_each_strip.
Qed.

(** ** More on [boto3_session] *)

Lemma scoped_client_Ok w service region p c :
  scoped_client w service region p = Ok c →
  c = {| credentials := Some p; service_name := service; region_name := region |}.
Proof.
  unfold scoped_client, boto3_Session, Session_client.
  destruct (session_failure w p); [done|]. simpl.
  destruct (client_failure w (Some p) service region); [done|].
  by intros [= <-].
Qed.

Lemma boto3_client_Ok w service region c :
  boto3_client w service region = Ok c →
  c = {| credentials := None; service_name := service; region_name := region |}.
Proof.
  unfold boto3_client.
  destruct (client_failure w None service region); [done|]. by intros [= <-].
Qed.

(** X6: for a named profile (non-empty and not ['default']) whose
    profile-scoped construction succeeds, [boto3_session] returns that
    client, bound to the profile, the service and the region, and emits
    nothing; when the construction raises an exception that is neither a
    [ClientError] nor [ProfileNotFound], the exception propagates unlogged
    and the ambient credentials are not tried. *)
Theorem boto3_session_named_profile w service region p :
  p ≠ EmptyString → p ≠ "default" →
  (∀ c, scoped_client w service region p = Ok c →
        session.boto3_session w service region (Some p) = ([], Ok c)
        ∧ c = {| credentials := Some p;
                 service_name := service; region_name := region |})
  ∧ (∀ e, scoped_client w service region p = Raise e →
          (∀ code message, e ≠ ClientError code message) →
          (∀ q, e ≠ ProfileNotFound q) →
          session.boto3_session w service region (Some p) = ([], Raise e)).
Proof.
  intros Hne Hnd. rewrite boto3_session_scoped by done. split.
  - intros c Hc. rewrite Hc. split; [done|]. by eapply scoped_client_Ok.
  - intros e -> Hce Hpnf. destruct e; try done.
    + by destruct (Hce code message).
    + by destruct (Hpnf profile).
Qed.

Lemma boto3_session_named_profile_witness :
  session.boto3_session examples.sts "sts" "us-east-1" (Some "dev")
  = ([], Ok {| credentials := Some "dev";
               service_name := "sts"; region_name := "us-east-1" |})
  ∧ session.boto3_session examples.no_shell "ec2" "us-east-1" (Some "dev")
    = ([], Raise (KeyError "credential_process")).
Proof.
  split.
  - refine (proj1 (proj1 (boto3_session_named_profile examples.sts
                            "sts" "us-east-1" "dev" _ _) _ eq_refl)); done.
  - refine (proj2 (boto3_session_named_profile examples.no_shell
                     "ec2" "us-east-1" "dev" _ _) _ eq_refl _ _); done.
Defined.

(** X7: every client [boto3_session] returns is bound to the requested
    service and region; its credentials are the ambient ones, or those of
    the requested profile, and the latter only for a profile that is
    non-empty and not ['default']. *)
Theorem boto3_session_client_binding w service region profile c :
  result (session.boto3_session w service region profile) = Ok c →
  service_name c = service ∧ region_name c = region
  ∧ (credentials c = None
     ∨ ∃ p, profile = Some p ∧ p ≠ EmptyString ∧ p ≠ "default"
            ∧ credentials c = Some p).
Proof.
  assert (Hamb : ambient profile →
    result (session.boto3_session w service region profile) = Ok c →
    service_name c = service ∧ region_name c = region
    ∧ (credentials c = None
       ∨ ∃ p, profile = Some p ∧ p ≠ EmptyString ∧ p ≠ "default"
              ∧ credentials c = Some p)).
  { intros Ha. rewrite boto3_session_ambient by done.
    intros ->%boto3_client_Ok. split_and!; [done..|by left]. }
  destruct profile as [p|]; [|apply Hamb; by left].
  destruct (decide (p = EmptyString)) as [->|Hne]; [apply Hamb; by left|].
  destruct (decide (p = "default")) as [->|Hnd]; [apply Hamb; by right|].
  rewrite boto3_session_scoped by done.
  destruct (scoped_client w service region p) as [c'|e] eqn:Hs.
  - intros [= ->]. apply scoped_client_Ok in Hs as ->.
    split_and!; [done..|]. right. by exists p.
  - destruct e; try done. simpl.
    intros ->%boto3_client_Ok. split_and!; [done..|by left].
Qed.

Lemma boto3_session_client_binding_witness :
  service_name {| credentials := None; service_name := "ec2";
                  region_name := "eu-west-1" |} = "ec2"
  ∧ region_name {| credentials := None; service_name := "ec2";
                   region_name := "eu-west-1" |} = "eu-west-1"
  ∧ (credentials {| credentials := None; service_name := "ec2";
                    region_name := "eu-west-1" |} = None
     ∨ ∃ p, Some "ops" = Some p ∧ p ≠ EmptyString ∧ p ≠ "default"
            ∧ credentials {| credentials := None; service_name := "ec2";
                             region_name := "eu-west-1" |} = Some p).
Proof.
  exact (boto3_session_client_binding examples.configured "ec2" "eu-west-1"
           (Some "ops") _ eq_refl).
Defined.

(** ** More on [authenticated] *)

Lemma emit_code_result_general exit_codes name (f : Z → event) :
  result (entry <- getitem exit_codes name;;
          c <- getitem entry "Code";;
          n <- percent_d c;;
          py_emit (f n))
  = match result (exit_code exit_codes name) with
    | Ok _ => Ok tt
    | Raise e => Raise e
    end.
Proof.
  unfold exit_code. rewrite !result_bind. unfold getitem at 1 3.
  destruct (exit_codes !! name) as [entry|]; [|done].
  rewrite !result_ret. cbv beta iota. rewrite !result_bind. unfold getitem.
  destruct (entry !! "Code") as [c|]; [|done].
  rewrite !result_ret. cbv beta iota. rewrite result_bind.
  by destruct c.
Qed.

Lemma authenticated_result_general w exit_codes default_region profile :
  result (session.authenticated w exit_codes default_region profile) =
  match result (identity_check w default_region profile) with
  | Ok response => Ok (bool_decide (http_status response = Some (VInt 200)))
  | Raise (ClientError code _) =>
      if String.eqb code "InvalidClientTokenId" then
        match result (exit_code exit_codes "EX_NOPERM") with
        | Ok _ => Ok false
        | Raise e => Raise e
        end
      else if String.eqb code "ExpiredToken" then
        match result (exit_code exit_codes "EX_CONFIG") with
        | Ok _ => Ok false
        | Raise e => Raise e
        end
      else Ok false
  | Raise _ => Ok false
  end.
Proof.
  assert (Hclause : ∀ code message,
    result
      ((if String.eqb code "InvalidClientTokenId" then
          entry <- getitem exit_codes "EX_NOPERM";;
          c <- getitem entry "Code";;
          n <- percent_d c;;
          py_emit (Event LogInfo "authenticated" [VOpt profile; VInt n])
        else if String.eqb code "ExpiredToken" then
          entry <- getitem exit_codes "EX_CONFIG";;
          c <- getitem entry "Code";;
          n <- percent_d c;;
          py_emit (Event LogInfo "authenticated" [VOpt profile; VInt n])
        else
          py_emit (Event LogException "authenticated" [VStr message]));;;
       py_ret false)
    = if String.eqb code "InvalidClientTokenId" then
        match result (exit_code exit_codes "EX_NOPERM") with
        | Ok _ => Ok false
        | Raise e => Raise e
        end
      else if String.eqb code "ExpiredToken" then
        match result (exit_code exit_codes "EX_CONFIG") with
        | Ok _ => Ok false
        | Raise e => Raise e
        end
      else Ok false).
  { intros code message. rewrite result_bind.
    destruct (String.eqb code "InvalidClientTokenId");
      [|destruct (String.eqb code "ExpiredToken")].
    - rewrite (emit_code_result_general _ _
                 (λ n, Event LogInfo "authenticated" [VOpt profile; VInt n])).
      by destruct (result (exit_code exit_codes "EX_NOPERM")).
    - rewrite (emit_code_result_general _ _
                 (λ n, Event LogInfo "authenticated" [VOpt profile; VInt n])).
      by destruct (result (exit_code exit_codes "EX_CONFIG")).
    - done. }
  unfold session.authenticated, identity_check, http_status.
  rewrite result_try, !result_bind.
  destruct (result (session.boto3_session w "sts" default_region profile))
    as [client|e].
  - rewrite result_bind, !result_lift.
    destruct (get_caller_identity w client) as [response|e].
    + rewrite result_bind. unfold getitem at 1.
      destruct (response !! "ResponseMetadata") as [metadata|]; [|done].
      rewrite result_ret. cbv beta iota. rewrite result_bind. unfold getitem.
      change (Some metadata ≫= (.!! "HTTPStatusCode"))
        with (metadata !! "HTTPStatusCode").
      destruct (metadata !! "HTTPStatusCode") as [status|]; [|done].
      rewrite result_ret. cbv beta iota.
      destruct (pyval_eqb status (VInt 200)) eqn:Heq.
      * apply pyval_eqb_eq in Heq as ->. by rewrite bool_decide_eq_true_2.
      * rewrite bool_decide_eq_false_2; [done|]. by intros [= ->].
    + destruct e; first [apply Hclause | done].
  - destruct e; first [apply Hclause | done].
Qed.

(** X8: a profile that the local configuration does not know is not
    reported as unauthenticated: [boto3_session] falls back to the ambient
    credentials, so [authenticated] answers for that profile what it
    answers with the profile absent. *)
Theorem authenticated_unknown_profile w exit_codes default_region p q :
  p ≠ EmptyString → p ≠ "default" →
  scoped_client w "sts" default_region p = Raise (ProfileNotFound q) →
  result (session.authenticated w exit_codes default_region (Some p))
  = result (session.authenticated w exit_codes default_region None).
Proof.
  intros Hne Hnd Hs. rewrite !authenticated_result_general.
  unfold identity_check. rewrite !result_bind.
  rewrite boto3_session_scoped, Hs by done.
  rewrite (boto3_session_ambient w "sts" default_region None) by by left.
  done.
Qed.

Lemma authenticated_unknown_profile_witness :
  result (session.authenticated examples.sts examples.sample_exit_codes
            "us-east-1" (Some "ops"))
  = result (session.authenticated examples.sts examples.sample_exit_codes
              "us-east-1" None).
Proof.
  refine (authenticated_unknown_profile examples.sts examples.sample_exit_codes
            "us-east-1" "ops" "ops" _ _ eq_refl); done.
Defined.

(** X9: the exit-code table is read only to build the two log messages,
    inside the [except] clause.  When the identity check fails with
    [InvalidClientTokenId] and the table has no ['EX_NOPERM'] entry, or with
    [ExpiredToken] and no ['EX_CONFIG'] entry, the [KeyError] of the lookup
    leaves [authenticated]; for every other error code the answer is
    [False] whatever the table holds. *)
Theorem authenticated_missing_exit_code w exit_codes default_region profile
    code message :
  result (identity_check w default_region profile)
  = Raise (ClientError code message) →
  (code = "InvalidClientTokenId" → exit_codes !! "EX_NOPERM" = None →
   result (session.authenticated w exit_codes default_region profile)
   = Raise (KeyError "EX_NOPERM"))
  ∧ (code = "ExpiredToken" → exit_codes !! "EX_CONFIG" = None →
     result (session.authenticated w exit_codes default_region profile)
     = Raise (KeyError "EX_CONFIG"))
  ∧ (code ≠ "InvalidClientTokenId" → code ≠ "ExpiredToken" →
     result (session.authenticated w exit_codes default_region profile)
     = Ok false).
Proof.
  intros Hi. rewrite authenticated_result_general, Hi. split_and!.
  - intros -> Hk. unfold exit_code, getitem. by rewrite Hk.
  - intros -> Hk. unfold exit_code, getitem. by rewrite Hk.
  - intros H1%String.eqb_neq H2%String.eqb_neq. by rewrite H1, H2.
Qed.

Lemma authenticated_missing_exit_code_witness :
  result (session.authenticated examples.no_shell ∅ "us-east-1" None)
  = Raise (KeyError "EX_CONFIG")
  ∧ result (session.authenticated examples.configured ∅ "us-east-1" (Some "dev"))
    = Ok false.
Proof.
  split.
  - exact (proj1 (proj2 (authenticated_missing_exit_code examples.no_shell ∅
                           "us-east-1" None "ExpiredToken" "expired" eq_refl))
             eq_refl eq_refl).
  - refine (proj2 (proj2 (authenticated_missing_exit_code examples.configured ∅
                            "us-east-1" (Some "dev") "AuthFailure" "denied"
                            eq_refl)) _ _); done.
Defined.

(** ** More on the image lookup *)

(** X10: when a non-empty region is requested, the regions are not
    enumerated and the outcome of the lookup is decided by the query of that
    region alone: a one-entry mapping for a non-empty answer, the empty
    mapping, returned normally, after a client error, [IndexError] for an
    empty answer, and any other exception re-raised. *)
Theorem lookup_single_region w default_region f profile r (detailed debug : bool) :
  r ≠ EmptyString →
  result (findLatestImage w default_region f profile (Some r) detailed debug) =
  match region_query w f profile r with
  | Ok (image :: _) =>
      Ok (selected detailed ({[ r := ImageId image ]}, {[ r := image ]}))
  | Ok [] => Raise IndexError
  | Raise (ClientError _ _) => Ok (selected detailed (∅, ∅))
  | Raise e => Raise e
  end.
Proof.
  intros Hr. rewrite findLatestImage_result.
  unfold current_ami.target_regions. simpl truthy_opt.
  rewrite (proj2 (truthy_true r) Hr). simpl.
  destruct (region_query w f profile r) as [[|image rest]|e]; [done| |].
  - by rewrite !insert_empty.
  - by destruct e.
Qed.

Lemma lookup_single_region_witness :
  result (findLatestImage (examples.provider []) "us-east-1" AmazonLinux1
            None (Some "region-c") false false)
  = Ok (current_ami.Amis ∅)
  ∧ result (findLatestImage (examples.provider []) "us-east-1" AmazonLinux2
              None (Some "region-a") true false)
    = Ok (current_ami.Metadata {[ "region-a" := examples.image_a ]}).
Proof.
  split.
  - refine (lookup_single_region (examples.provider []) "us-east-1" AmazonLinux1
              None "region-c" false false _). done.
  - refine (lookup_single_region (examples.provider []) "us-east-1" AmazonLinux2
              None "region-a" true false _). done.
Defined.

Lemma collect_raises fetch pre region post amis metadata e :
  Forall (λ r, tolerated (fetch r)) pre → fetch region = Raise e →
  (∀ code message, e ≠ ClientError code message) →
  collect fetch (pre ++ region :: post) amis metadata = Raise e.
Proof.
  intros H Hq He. revert amis metadata.
  induction H as [|r pre Hr _ IH]; intros amis metadata; simpl.
  - rewrite Hq. destruct e; try done. by destruct (He code message).
  - destruct Hr as [(code & message & ->)|(image & rest & ->)]; apply IH.
Qed.

(** X11: the lookup returns a mapping exactly when the target regions
    could be determined and the query of each of them either raised a
    client error or answered with at least one image; in particular a
    lookup that returned met no region with an empty answer. *)
Theorem lookup_returns_iff w default_region f profile region (detailed debug : bool) :
  (∃ res,
     result (findLatestImage w default_region f profile region detailed debug)
     = Ok res)
  ↔ ∃ regions,
      result (current_ami.target_regions w default_region profile region)
      = Ok regions
      ∧ Forall (λ r, tolerated (region_query w f profile r)) regions.
Proof.
  rewrite findLatestImage_result.
  destruct (result (current_ami.target_regions w default_region profile region))
    as [regions|e]; [|split; [by intros [? ?]|by intros (? & ? & _)]].
  split.
  - intros [res Hres]. exists regions. split; [done|].
    destruct (collect _ regions ∅ ∅) as [dicts|e] eqn:Hc; [|done].
    by eapply collect_returned.
  - intros (? & [= <-] & Hall).
    destruct (collect_returns _ _ ∅ ∅ Hall) as [dicts ->]. by eexists.
Qed.

(** X12: one failing region is fatal for the whole lookup: when the first
    region whose query neither raised a client error nor answered with an
    image raised an exception [e], the lookup raises [e] and the images
    found in the regions before it are lost. *)
Theorem lookup_first_failure w default_region f profile region
    (detailed debug : bool) pre r post e :
  result (current_ami.target_regions w default_region profile region)
  = Ok (pre ++ r :: post) →
  Forall (λ r, tolerated (region_query w f profile r)) pre →
  region_query w f profile r = Raise e →
  (∀ code message, e ≠ ClientError code message) →
  result (findLatestImage w default_region f profile region detailed debug)
  = Raise e.
Proof.
  intros Ht Hpre Hq He. rewrite findLatestImage_result, Ht.
  by rewrite (collect_raises _ pre r post ∅ ∅ e Hpre Hq He).
Qed.

Lemma lookup_first_failure_witness :
  result (findLatestImage examples.unreachable "us-east-1" AmazonLinux1
            None None false false)
  = Raise (OtherError "EndpointConnectionError").
Proof.
  refine (lookup_first_failure examples.unreachable "us-east-1" AmazonLinux1
            None None false false ["region-a"] "region-d" []
            (OtherError "EndpointConnectionError") eq_refl _ eq_refl _);
    [|done].
  apply Forall_cons_2; [|apply Forall_nil_2]. right. by do 2 eexists.
Defined.

Lemma found_same_elements fetch regions1 regions2 k :
  (∀ r, r ∈ regions1 ↔ r ∈ regions2) →
  found fetch regions1 k = found fetch regions2 k.
Proof.
  intros H. unfold found.
  destruct (decide (k ∈ regions1)) as [H1|H1];
    destruct (decide (k ∈ regions2)) as [H2|H2]; try done.
  - by apply H in H1.
  - by apply H in H2.
Qed.

Lemma collect_same_elements fetch regions1 regions2 dicts :
  (∀ r, r ∈ regions1 ↔ r ∈ regions2) →
  collect fetch regions1 ∅ ∅ = Ok dicts →
  collect fetch regions2 ∅ ∅ = Ok dicts.
Proof.
  intros H Hc.
  assert (Hall : Forall (λ r, tolerated (fetch r)) regions2).
  { apply collect_returned in Hc. rewrite Forall_forall in Hc.
    apply Forall_forall. intros r Hr. apply Hc. by apply H. }
  destruct (collect_returns _ _ ∅ ∅ Hall) as [[amis2 metadata2] Hc2].
  rewrite Hc2. destruct dicts as [amis1 metadata1]. do 2 f_equal.
  - apply map_eq. intros k.
    destruct (collect_lookup _ _ _ _ _ _ Hc k) as [-> _].
    destruct (collect_lookup _ _ _ _ _ _ Hc2 k) as [-> _].
    by rewrite (found_same_elements _ _ _ _ H).
  - apply map_eq. intros k.
    destruct (collect_lookup _ _ _ _ _ _ Hc k) as [_ ->].
    destruct (collect_lookup _ _ _ _ _ _ Hc2 k) as [_ ->].
    by rewrite (found_same_elements _ _ _ _ H).
Qed.

(** X13: what the loops of [amazonlinux1] and [amazonlinux2] return
    depends on the set of regions only: started on empty dictionaries, a
    loop that returns on one list of regions returns the same two
    dictionaries on every list with the same elements, whatever their order
    and repetitions. *)
Theorem lookup_loops_ignore_order w profile regions1 regions2 dicts :
  (∀ r, r ∈ regions1 ↔ r ∈ regions2) →
  (result (current_ami.amazonlinux1_loop w profile regions1 ∅ ∅) = Ok dicts →
   result (current_ami.amazonlinux1_loop w profile regions2 ∅ ∅) = Ok dicts)
  ∧ (result (current_ami.amazonlinux2_loop w profile regions1 ∅ ∅) = Ok dicts →
     result (current_ami.amazonlinux2_loop w profile regions2 ∅ ∅) = Ok dicts).
Proof.
  intros H. rewrite !amazonlinux1_loop_result, !amazonlinux2_loop_result.
  split; by apply collect_same_elements.
Qed.

Lemma lookup_loops_ignore_order_witness :
  result (current_ami.amazonlinux1_loop
            (examples.provider []) None ["region-c"; "region-a"; "region-c"] ∅ ∅)
  = Ok ({[ "region-a" := "ami-0a" ]}, {[ "region-a" := examples.image_a ]}).
Proof.
  refine (proj1 (lookup_loops_ignore_order (examples.provider []) None
                   ["region-a"; "region-c"] ["region-c"; "region-a"; "region-c"]
                   _ _) eq_refl).
  intros r. rewrite !elem_of_cons, !elem_of_nil. tauto.
Defined.

Lemma collect_projection fetch regions amis metadata amis' metadata' :
  collect fetch regions amis metadata = Ok (amis', metadata') →
  amis = ImageId <$> metadata → amis' = ImageId <$> metadata'.
Proof.
  revert amis metadata.
  induction regions as [|region regions IH]; intros amis metadata H Hp.
  - by injection H as <- <-.
  - simpl in H. destruct (fetch region) as [[|image0 rest]|e]; [done| |].
    + eapply IH; [done|]. by rewrite fmap_insert, Hp.
    + destruct e; try done. by eapply IH.
Qed.

(** X14: the two forms of the result agree: on the same world and
    arguments, the lookup without [detailed] returns the identifiers of
    the records the lookup with [detailed] returns, under the same regions,
    and when one of the two raises the other raises the same exception. *)
Theorem lookup_detailed_consistent w default_region f profile region
    (debug debug' : bool) :
  match result (findLatestImage w default_region f profile region false debug),
        result (findLatestImage w default_region f profile region true debug')
  with
  | Ok (current_ami.Amis amis), Ok (current_ami.Metadata metadata) =>
      amis = ImageId <$> metadata
  | Raise e, Raise e' => e = e'
  | _, _ => False
  end.
Proof.
  rewrite !findLatestImage_result.
  destruct (result (current_ami.target_regions w default_region profile region))
    as [regions|e]; [|done].
  destruct (collect _ regions ∅ ∅) as [[amis metadata]|e] eqn:Hc; [|done].
  simpl. eapply collect_projection; [done|]. by rewrite fmap_empty.
Qed.

(** ** [redhat] *)

Lemma redhat_loop_result w profile regions amis metadata :
  result (current_ami.redhat_loop w profile regions amis metadata)
  = collect (redhat_query w profile) regions amis metadata.
Proof.
  revert amis metadata. induction regions as [|region regions IH];
    intros amis metadata; [done|].
  cbn [current_ami.redhat_loop collect].
  rewrite result_bind, loop_body_result. unfold redhat_query at 1.
  destruct (result (current_ami.region_images w _ profile region))
    as [[|image0 rest]|e]; [done|apply IH|].
  destruct e; first [apply IH|done].
Qed.

Lemma redhat_result w default_region profile region (detailed debug : bool) :
  result (current_ami.redhat w default_region profile region detailed debug)
  = match result (current_ami.target_regions w default_region profile region) with
    | Raise e => Raise e
    | Ok regions =>
        match collect (redhat_query w profile) regions ∅ ∅ with
        | Raise e => Raise e
        | Ok dicts => Ok (selected detailed dicts)
        end
    end.
Proof.
  unfold current_ami.redhat. rewrite result_bind.
  destruct (result (current_ami.target_regions w default_region profile region))
    as [regions|e]; [|done].
  rewrite result_bind, redhat_loop_result.
  destruct (collect _ regions ∅ ∅) as [dicts|e]; [|done].
  by destruct detailed.
Qed.

(** X15: [redhat] is the same loop run with an empty list of name
    patterns: the query of a region is [describe_images] with no name
    pattern, on the client of that region.  Over target regions each of which raises a client error or
    answers with at least one image, it returns a mapping whose keys are
    exactly the regions that answered with an image, each mapped to the
    first image of its answer (the record when [detailed] is set, the
    identifier otherwise); a region that answers with an empty list makes
    it raise [IndexError]. *)
Theorem redhat_lookup w default_region profile region (detailed debug : bool)
    regions :
  result (current_ami.target_regions w default_region profile region)
  = Ok regions →
  (Forall (λ r, tolerated (redhat_query w profile r)) regions →
   ∃ res,
     result (current_ami.redhat w default_region profile region detailed debug)
     = Ok res
     ∧ (∀ r, r ∈ current_ami.keys res
             ↔ r ∈ regions ∧ has_image (redhat_query w profile r))
     ∧ (∀ r image rest,
          r ∈ regions → redhat_query w profile r = Ok (image :: rest) →
          current_ami.at_region res r
          = Some (if detailed then current_ami.EntryRecord image
                  else current_ami.EntryId (ImageId image))))
  ∧ (∀ pre r post,
       regions = pre ++ r :: post →
       Forall (λ r, tolerated (redhat_query w profile r)) pre →
       redhat_query w profile r = Ok [] →
       result (current_ami.redhat w default_region profile region detailed debug)
       = Raise IndexError)
  ∧ (∀ r,
       redhat_query w profile r
       = match result (session.boto3_session w "ec2" r profile) with
         | Ok client => describe_images w client []
         | Raise e => Raise e
         end).
Proof.
  intros Ht. rewrite redhat_result, Ht. split_and!.
  - intros Hall.
    destruct (collect_returns _ _ ∅ ∅ Hall) as [[amis' metadata'] Hc].
    rewrite Hc. eexists. split_and!; [done| |].
    + intros r. unfold selected. simpl.
      rewrite (keys_found _ _ _ _ detailed Hc r). unfold is_Some, has_image.
      setoid_rewrite found_Some. split.
      * intros (image & ? & rest & ?). split; [done|by exists image, rest].
      * intros (? & image & rest & ?). exists image. split; [done|by exists rest].
    + intros r image rest Hin Hq.
      assert (Hfound : found (redhat_query w profile) regions r = Some image).
      { apply found_Some. split; [done|by eexists]. }
      destruct (collect_lookup _ _ _ _ _ _ Hc r) as [Ha Hm].
      rewrite Hfound in Ha, Hm.
      destruct detailed; simpl; by rewrite ?Ha, ?Hm.
  - intros pre r post -> Hpre Hq.
    by rewrite (collect_empty_raises _ pre r post ∅ ∅ Hpre Hq).
  - intros r. unfold redhat_query, current_ami.region_images.
    rewrite result_bind.
    by destruct (result (session.boto3_session w "ec2" r profile)).
Qed.

Lemma redhat_lookup_witness :
  (∃ res,
     result (current_ami.redhat (examples.by_pattern)
               "us-east-1" None None false false) = Ok res
     ∧ (∀ r, r ∈ current_ami.keys res
             ↔ r ∈ ["region-c"; "region-a"]
               ∧ has_image (redhat_query (examples.by_pattern)
                              None r))
     ∧ (∀ r image rest,
          r ∈ ["region-c"; "region-a"] →
          redhat_query (examples.by_pattern) None r
          = Ok (image :: rest) →
          current_ami.at_region res r
          = Some (current_ami.EntryId (ImageId image))))
  ∧ result (current_ami.redhat (examples.provider ["region-b"])
              "us-east-1" None None false false) = Raise IndexError.
Proof.
  split.
  - refine (proj1 (redhat_lookup (examples.by_pattern)
                     "us-east-1" None None false false ["region-c"; "region-a"]
                     eq_refl) _).
    repeat apply Forall_cons_2; [..|apply Forall_nil_2].
    + left. by do 2 eexists.
    + right. by do 2 eexists.
  - exact (proj1 (proj2 (redhat_lookup (examples.provider ["region-b"])
                           "us-east-1" None None false false ["region-b"]
                           eq_refl))
             [] "region-b" [] eq_refl (Forall_nil_2 _) eq_refl).
Defined.

(** ** Profiles that mean the ambient credentials *)

Lemma region_images_ambient w values profile profile' region :
  ambient profile → ambient profile' →
  current_ami.region_images w values profile region
  = current_ami.region_images w values profile' region.
Proof.
  intros H H'. unfold current_ami.region_images.
  by rewrite !boto3_session_ambient.
Qed.

Lemma get_regions_ambient w default_region profile profile' :
  ambient profile → ambient profile' →
  current_ami.get_regions w default_region profile
  = current_ami.get_regions w default_region profile'.
Proof.
  intros H H'. unfold current_ami.get_regions.
  by rewrite !boto3_session_ambient.
Qed.

Lemma amazonlinux1_loop_ambient w profile profile' regions amis metadata :
  ambient profile → ambient profile' →
  current_ami.amazonlinux1_loop w profile regions amis metadata
  = current_ami.amazonlinux1_loop w profile' regions amis metadata.
Proof.
  intros H H'. revert amis metadata.
  induction regions as [|region regions IH]; intros amis metadata; [done|].
  cbn [current_ami.amazonlinux1_loop].
  rewrite (region_images_ambient w _ profile profile') by done.
  apply py_bind_ext. intros dicts. apply IH.
Qed.

Lemma redhat_loop_ambient w profile profile' regions amis metadata :
  ambient profile → ambient profile' →
  current_ami.redhat_loop w profile regions amis metadata
  = current_ami.redhat_loop w profile' regions amis metadata.
Proof.
  intros H H'. revert amis metadata.
  induction regions as [|region regions IH]; intros amis metadata; [done|].
  cbn [current_ami.redhat_loop].
  rewrite (region_images_ambient w _ profile profile') by done.
  apply py_bind_ext. intros dicts. apply IH.
Qed.

Lemma or_default_ambient profile : ambient profile → or_default profile = Some "default".
Proof.
  unfold or_default. intros [H| ->]; [by rewrite H|done].
Qed.

Lemma amazonlinux2_loop_ambient w profile profile' regions amis metadata :
  ambient profile → ambient profile' →
  current_ami.amazonlinux2_loop w profile regions amis metadata
  = current_ami.amazonlinux2_loop w profile' regions amis metadata.
Proof.
  intros H H'. destruct regions as [|region regions]; [done|].
  cbn [current_ami.amazonlinux2_loop].
  fold (or_default profile). fold (or_default profile').
  by rewrite !or_default_ambient.
Qed.

(** X16: an absent profile, an empty profile and the profile ['default']
    are interchangeable in the three lookup functions: with any two of
    them the call has the same result and the same log output. *)
Theorem lookups_ambient_profiles w default_region profile profile' region
    (detailed debug : bool) :
  ambient profile → ambient profile' →
  current_ami.amazonlinux1 w default_region profile region detailed debug
  = current_ami.amazonlinux1 w default_region profile' region detailed debug
  ∧ current_ami.amazonlinux2 w default_region profile region detailed debug
    = current_ami.amazonlinux2 w default_region profile' region detailed debug
  ∧ current_ami.redhat w default_region profile region detailed debug
    = current_ami.redhat w default_region profile' region detailed debug.
Proof.
  intros H H'.
  unfold current_ami.amazonlinux1, current_ami.amazonlinux2, current_ami.redhat,
    current_ami.target_regions.
  rewrite (get_regions_ambient w default_region profile profile') by done.
  split_and!; apply py_bind_ext; intros regions.
  - by rewrite (amazonlinux1_loop_ambient w profile profile').
  - by rewrite (amazonlinux2_loop_ambient w profile profile').
  - by rewrite (redhat_loop_ambient w profile profile').
Qed.

Lemma lookups_ambient_profiles_witness :
  current_ami.amazonlinux1 (examples.provider ["region-a"; "region-c"])
    "us-east-1" None None false false
  = current_ami.amazonlinux1 (examples.provider ["region-a"; "region-c"])
      "us-east-1" (Some "default") None false false
  ∧ current_ami.amazonlinux2 (examples.provider ["region-a"; "region-c"])
      "us-east-1" None None false false
    = current_ami.amazonlinux2 (examples.provider ["region-a"; "region-c"])
        "us-east-1" (Some "default") None false false
  ∧ current_ami.redhat (examples.provider ["region-a"; "region-c"])
      "us-east-1" None None false false
    = current_ami.redhat (examples.provider ["region-a"; "region-c"])
        "us-east-1" (Some "default") None false false.
Proof.
  refine (lookups_ambient_profiles (examples.provider ["region-a"; "region-c"])
            "us-east-1" None (Some "default") None false false _ _);
    [by left|by right].
Defined.

(** ** What is logged *)

Lemma loop_body_logs w fn values profile region amis metadata code message :
  result (current_ami.region_images w values profile region)
  = Raise (ClientError code message) →
  logged fn (ClientError code message)
  ∈ output
      (py_try
         (images <- current_ami.region_images w values profile region;;
          image0 <- first images;;
          let metadata := <[region := image0]> metadata in
          let amis := <[region := ImageId image0]> amis in
          py_ret (amis, metadata))
         (current_ami.region_handlers fn amis metadata)).
Proof.
  intros Hq. rewrite output_try, result_bind, Hq. simpl.
  apply elem_of_app. right. by left.
Qed.

Lemma amazonlinux1_loop_logs w profile regions amis metadata dicts r code message :
  result (current_ami.amazonlinux1_loop w profile regions amis metadata) = Ok dicts →
  r ∈ regions →
  region_query w AmazonLinux1 profile r = Raise (ClientError code message) →
  logged "amazonlinux1" (ClientError code message)
  ∈ output (current_ami.amazonlinux1_loop w profile regions amis metadata).
Proof.
  unfold region_query. simpl values_of. intros H Hin Hq. revert amis metadata H.
  induction regions as [|region regions IH]; intros amis metadata H.
  - by apply elem_of_nil in Hin.
  - cbn [current_ami.amazonlinux1_loop] in *.
    rewrite result_bind in H. rewrite output_bind. apply elem_of_app.
    apply elem_of_cons in Hin as [->|Hin].
    + left. by apply loop_body_logs.
    + right. destruct (result (py_try _ _)) as [d|e]; [|done]. by apply IH.
Qed.

Lemma amazonlinux2_loop_logs w profile regions amis metadata dicts r code message :
  result (current_ami.amazonlinux2_loop w profile regions amis metadata) = Ok dicts →
  r ∈ regions →
  region_query w AmazonLinux2 profile r = Raise (ClientError code message) →
  logged "amazonlinux2" (ClientError code message)
  ∈ output (current_ami.amazonlinux2_loop w profile regions amis metadata).
Proof.
  unfold region_query. simpl values_of. intros H Hin Hq.
  revert profile amis metadata H Hq.
  induction regions as [|region regions IH]; intros profile amis metadata H Hq.
  - by apply elem_of_nil in Hin.
  - cbn [current_ami.amazonlinux2_loop] in *. fold (or_default profile) in *.
    cbv zeta in *.
    rewrite result_bind in H. rewrite output_bind. apply elem_of_app.
    apply elem_of_cons in Hin as [->|Hin].
    + left. apply loop_body_logs. by rewrite region_images_or_default.
    + right. destruct (result (py_try _ _)) as [d|e]; [|done].
      apply IH; [done..|]. by rewrite region_images_or_default.
Qed.

(** X17: a region skipped after a client error leaves a trace: in every
    run of [amazonlinux1] or [amazonlinux2] that returns, each target region
    whose query raised a [ClientError] has a [logger.exception] record of
    that error, under the name of the lookup function, in the log output. *)
Theorem lookup_logs_skipped_regions w default_region f profile region
    (detailed debug : bool) res regions r code message :
  result (findLatestImage w default_region f profile region detailed debug)
  = Ok res →
  result (current_ami.target_regions w default_region profile region)
  = Ok regions →
  r ∈ regions →
  region_query w f profile r = Raise (ClientError code message) →
  logged (function_name f) (ClientError code message)
  ∈ output (findLatestImage w default_region f profile region detailed debug).
Proof.
  intros Hres Ht Hin Hq.
  destruct f; simpl in *;
    unfold current_ami.amazonlinux1, current_ami.amazonlinux2 in *;
    rewrite result_bind, Ht, result_bind in Hres;
    rewrite output_bind, Ht, output_bind;
    apply elem_of_app; right; apply elem_of_app; left.
  - destruct (result (current_ami.amazonlinux1_loop w profile regions ∅ ∅))
      as [dicts|e] eqn:Hl; [|done].
    by eapply amazonlinux1_loop_logs.
  - destruct (result (current_ami.amazonlinux2_loop w profile regions ∅ ∅))
      as [dicts|e] eqn:Hl; [|done].
    by eapply amazonlinux2_loop_logs.
Qed.

Lemma lookup_logs_skipped_regions_witness :
  logged "amazonlinux2" (ClientError "RequestLimitExceeded" "transport error")
  ∈ output (findLatestImage (examples.provider ["region-a"; "region-c"])
              "us-east-1" AmazonLinux2 None None false false).
Proof.
  refine (lookup_logs_skipped_regions
            (examples.provider ["region-a"; "region-c"]) "us-east-1"
            AmazonLinux2 None None false false
            (current_ami.Amis {[ "region-a" := "ami-0a" ]})
            ["region-a"; "region-c"] "region-c"
            "RequestLimitExceeded" "transport error" eq_refl eq_refl _ eq_refl).
  apply elem_of_cons. right. apply elem_of_cons. by left.
Defined.

(** ** The enumeration of the regions *)

(** X18: [get_regions] logs and re-raises a [ClientError] met while
    obtaining its client, and lets any other exception of that step pass
    unlogged; once it has a client, its outcome is that of
    [describe_regions] on it: the provider's list in the provider's order,
    or the exception of the call, a [ClientError] included, which at this
    point is neither caught nor logged by [get_regions]. *)
Theorem get_regions_outcome w default_region profile :
  (∀ client,
     result (session.boto3_session w "ec2" default_region profile) = Ok client →
     current_ami.get_regions w default_region profile
     = (output (session.boto3_session w "ec2" default_region profile),
        describe_regions w client))
  ∧ (∀ code message,
       result (session.boto3_session w "ec2" default_region profile)
       = Raise (ClientError code message) →
       current_ami.get_regions w default_region profile
       = (output (session.boto3_session w "ec2" default_region profile)
          ++ [logged "get_regions" (ClientError code message)],
          Raise (ClientError code message)))
  ∧ (∀ e,
       result (session.boto3_session w "ec2" default_region profile) = Raise e →
       (∀ code message, e ≠ ClientError code message) →
       current_ami.get_regions w default_region profile
       = (output (session.boto3_session w "ec2" default_region profile),
          Raise e)).
Proof.
  unfold current_ami.get_regions.
  destruct (session.boto3_session w "ec2" default_region profile)
    as [l [client|e]]; simpl; split_and!; try done.
  - intros client' [= <-]. by rewrite app_nil_r.
  - by intros code message [= ->].
  - intros e' [= <-] He. destruct e; try done. by destruct (He code message).
Qed.

Lemma get_regions_outcome_witness :
  current_ami.get_regions examples.no_shell "us-east-1" (Some "ops")
  = ([], Raise (ClientError "UnauthorizedOperation" "denied"))
  ∧ current_ami.get_regions examples.configured "us-east-1" (Some "dev")
    = ([Event LogException "boto3_session" [VStr "AuthFailure"; VStr "denied"];
        logged "get_regions" (ClientError "AuthFailure" "denied")],
       Raise (ClientError "AuthFailure" "denied")).
Proof.
  split.
  - exact (proj1 (get_regions_outcome examples.no_shell "us-east-1" (Some "ops"))
             _ eq_refl).
  - exact (proj1 (proj2 (get_regions_outcome examples.configured "us-east-1"
                           (Some "dev")))
             "AuthFailure" "denied" eq_refl).
Defined.

(** X19: when no region is requested, absent or empty, a failure of
    [get_regions] ends the three lookup functions before any image query:
    they raise the exception of the enumeration, a [ClientError] included
    (which is tolerated only inside the loop), and their log output is that
    of [get_regions]. *)
Theorem lookup_enumeration_failure w default_region profile region
    (detailed debug : bool) e :
  truthy_opt region = false →
  result (current_ami.get_regions w default_region profile) = Raise e →
  current_ami.amazonlinux1 w default_region profile region detailed debug
  = (output (current_ami.get_regions w default_region profile), Raise e)
  ∧ current_ami.amazonlinux2 w default_region profile region detailed debug
    = (output (current_ami.get_regions w default_region profile), Raise e)
  ∧ current_ami.redhat w default_region profile region detailed debug
    = (output (current_ami.get_regions w default_region profile), Raise e).
Proof.
  intros Hr Hg.
  unfold current_ami.amazonlinux1, current_ami.amazonlinux2, current_ami.redhat,
    current_ami.target_regions.
  rewrite Hr.
  destruct (current_ami.get_regions w default_region profile) as [l [regions|e']];
    [done|].
  simpl in Hg. by injection Hg as ->.
Qed.

Lemma lookup_enumeration_failure_witness :
  current_ami.amazonlinux1 examples.no_shell "us-east-1" (Some "ops") None
    false false
  = ([], Raise (ClientError "UnauthorizedOperation" "denied"))
  ∧ current_ami.amazonlinux2 examples.no_shell "us-east-1" (Some "ops")
      (Some EmptyString) true false
    = ([], Raise (ClientError "UnauthorizedOperation" "denied")).
Proof.
  split.
  - exact (proj1 (lookup_enumeration_failure examples.no_shell "us-east-1"
                    (Some "ops") None false false
                    (ClientError "UnauthorizedOperation" "denied")
                    eq_refl eq_refl)).
  - exact (proj1 (proj2 (lookup_enumeration_failure examples.no_shell "us-east-1"
                           (Some "ops") (Some EmptyString) true false
                           (ClientError "UnauthorizedOperation" "denied")
                           eq_refl eq_refl))).
Defined.

(** ** What [authenticated] hides *)

(** X20: an identity check that fails with an exception other than a
    [ClientError] is swallowed without a trace: [authenticated] returns
    [False] and adds no record of its own to the log, whose content is what
    [boto3_session] emitted. *)
Theorem authenticated_swallows_silently w exit_codes default_region profile e :
  result (identity_check w default_region profile) = Raise e →
  (∀ code message, e ≠ ClientError code message) →
  session.authenticated w exit_codes default_region profile
  = (output (session.boto3_session w "sts" default_region profile), Ok false).
Proof.
  intros Hi He. apply py_eq.
  - revert Hi. unfold identity_check, session.authenticated.
    rewrite result_bind, output_try, output_bind, !result_bind.
    destruct (result (session.boto3_session w "sts" default_region profile))
      as [client|e'].
    + rewrite output_bind, result_bind, !result_lift.
      change (output (py_lift ?r)) with (@nil event).
      destruct (get_caller_identity w client) as [response|e']; [done|].
      intros [= ->]. destruct e; try (by rewrite !app_nil_r).
      by destruct (He code message).
    + intros [= ->]. destruct e; try (by rewrite !app_nil_r).
      by destruct (He code message).
  - rewrite authenticated_result_general, Hi. destruct e; try done.
    by destruct (He code message).
Qed.

Lemma authenticated_swallows_silently_witness :
  session.authenticated examples.no_shell ∅ "us-east-1" (Some "dev")
  = ([], Ok false).
Proof.
  refine (authenticated_swallows_silently examples.no_shell ∅ "us-east-1"
            (Some "dev") (KeyError "credential_process") eq_refl _).
  done.
Defined.
